(** * ISCalculationSeparate: ionization and scintillation of an energy deposit

    Shallow embedding of
    [larsim/IonizationScintillation/ISCalculationSeparate.cxx]
    (namespace [larg4]).

    The C++ code computes with [double] and [float].  The methods are
    written over the interface [Arith] of the arithmetic operations the
    code uses, and read at the instance [IEEE]: [double] is Rocq's
    primitive binary64 [float], [float] is a binary32 [spec_float]; this is
    what the compiled program computes, with infinities, NaN, signed zeros
    and rounding.  Statements that need no more of the arithmetic than a
    few laws are proved over the interface; statements about signs, zero
    steps and rounding are proved of binary64 itself.

    [std::log] of <cmath> is not part of the repository: it is the
    interface [Libm].

    The second part embeds [produce] and [beginRun] of
    [larsim/EventGenerator/GENIE/NucleonDecay_module.cc] (module [evgen]):
    the search for the active volume, the vertex and the conversion of the
    generated record into [MCParticle]s.  The generator and the flat
    distribution are outside the repository and are parameters. *)

From Stdlib Require Import ZArith Bool List Lia.
From Stdlib Require String.
From Stdlib Require Import Floats.

(** ** The arithmetic of the code *)

(** [double] and [float] with the operations that occur in the file.
    [narrow] and [widen] are the implicit conversions between them,
    [struth] is the conversion of a [float] to [bool] in [if(ds)].
    [deqb] ([operator==]) and [dfinite] ([std::isfinite]) are not called
    by the code; statements use them to speak about results. *)
Class Arith (double single : Type) := {
  dzero : double;                       (* 0.    *)
  dunit : double;                       (* 1.    *)
  dmilli : double;                      (* 1.e-3 *)
  dadd : double -> double -> double;
  dmul : double -> double -> double;
  ddiv : double -> double -> double;
  dsqrt : double -> double;
  dltb : double -> double -> bool;
  deqb : double -> double -> bool;
  dfinite : double -> bool;
  sdiv : single -> single -> single;
  struth : single -> bool;
  widen : single -> double;
  narrow : double -> single
}.

(** [std::log] on [double]. *)
Class Libm (double : Type) := {
  log : double -> double
}.

Declare Scope cxx_scope.
Delimit Scope cxx_scope with cxx.
Infix "+" := dadd : cxx_scope.
Infix "*" := dmul : cxx_scope.
Infix "/" := ddiv : cxx_scope.
Infix "<?" := dltb : cxx_scope.

(** *** IEEE 754 instance *)

Module Binary32.

(** binary32: 24 bits of precision, infinities at exponent 128. *)
Definition prec : Z := 24.
Definition emax : Z := 128.

Definition t : Type := spec_float.

Definition div (x y : t) : t := SFdiv prec emax x y.

(** A [float] converts to [true] unless it compares equal to zero. *)
Definition truth (x : t) : bool := negb (SFeqb x (S754_zero false)).

(** [float] to [double]: every binary32 value is a binary64 value; the
    mantissa is realigned to 53 bits. *)
Definition to_double (x : t) : float :=
  SF2Prim
    match x with
    | S754_finite s m e => binary_round FloatOps.prec FloatOps.emax s m e
    | _ => x
    end.

(** [double] to [float]: round to nearest even, overflow to infinity. *)
Definition of_double (d : float) : t :=
  match Prim2SF d with
  | S754_finite s m e => binary_round prec emax s m e
  | x => x
  end.

End Binary32.

#[export] Instance IEEE : Arith float Binary32.t := {
  dzero := 0%float;
  dunit := 1%float;
  dmilli := 0x1.0624dd2f1a9fcp-10%float;
  dadd := PrimFloat.add;
  dmul := PrimFloat.mul;
  ddiv := PrimFloat.div;
  dsqrt := PrimFloat.sqrt;
  dltb := PrimFloat.ltb;
  deqb := PrimFloat.eqb;
  dfinite := PrimFloat.is_finite;
  sdiv := Binary32.div;
  struth := Binary32.truth;
  widen := Binary32.to_double;
  narrow := Binary32.of_double
}.

(** ** Data model and methods *)

Section ISCalculationSeparate.

Context {double single : Type} {A : Arith double single} {M : Libm double}.

Local Open Scope cxx_scope.

(** [geo::Point_t] and [geo::Vector_t]: three [double] coordinates. *)
Record Point_t := { pt_X : double; pt_Y : double; pt_Z : double }.
Record Vector_t := { vec_X : double; vec_Y : double; vec_Z : double }.

(** The services the calculator holds pointers to.  Their classes are
    declared outside this repository; each record lists the member
    functions the file calls, with the answers the service gives. *)

(** [detinfo::LArProperties]; the [bool] argument is the prescale flag the
    code passes as [true]. *)
Record LArProperties := {
  ScintYield : bool -> double;
  ScintByParticleType : bool;
  ProtonScintYield : bool -> double;
  MuonScintYield : bool -> double;
  PionScintYield : bool -> double;
  KaonScintYield : bool -> double;
  AlphaScintYield : bool -> double;
  ElectronScintYield : bool -> double
}.

(** [detinfo::DetectorProperties]; [Efield] is the call [Efield()]. *)
Record DetectorProperties := {
  Efield : double;
  Temperature : double;
  Density : double -> double
}.

(** [sim::LArG4Parameters]. *)
Record LArG4Parameters := {
  RecombA : double;
  Recombk : double;
  ModBoxA : double;
  ModBoxB : double;
  UseModBoxRecomb : bool;
  GeVToElectrons : double
}.

(** [spacecharge::SpaceCharge]. *)
Record SpaceCharge := {
  EnableSimEfieldSCE : bool;
  GetEfieldOffsets : Point_t -> Vector_t
}.

(** [sim::SimEnergyDeposit], through its accessors; [PdgCode] is an [int]. *)
Record SimEnergyDeposit := {
  Energy : double;
  StepLength : double;
  MidPointX : double;
  MidPointY : double;
  MidPointZ : double;
  PdgCode : Z
}.

(** The data members of [larg4::ISCalculationSeparate] that the file reads
    or writes.  The first four are the service pointers, the next six the
    configuration set by [Initialize], the next three the per-deposit
    results, the last the scratch vector of [EFieldAtStep]. *)
Record ISCalculationSeparate := {
  fLArProp : LArProperties;
  fSCE : SpaceCharge;
  fDetProp : DetectorProperties;
  fLArG4Prop : LArG4Parameters;
  fScintYieldFactor : double;
  fRecombA : double;
  fRecombk : double;
  fModBoxA : double;
  fModBoxB : double;
  fUseModBoxRecomb : bool;
  fEnergyDeposit : double;
  fNumScintPhotons : double;
  fNumIonElectrons : double;
  fEfieldOffsets : Vector_t
}.

(** Assignments to one data member. *)
Definition set_fEnergyDeposit (this : ISCalculationSeparate) (v : double) :=
  {| fLArProp := fLArProp this; fSCE := fSCE this; fDetProp := fDetProp this;
     fLArG4Prop := fLArG4Prop this;
     fScintYieldFactor := fScintYieldFactor this;
     fRecombA := fRecombA this; fRecombk := fRecombk this;
     fModBoxA := fModBoxA this; fModBoxB := fModBoxB this;
     fUseModBoxRecomb := fUseModBoxRecomb this;
     fEnergyDeposit := v;
     fNumScintPhotons := fNumScintPhotons this;
     fNumIonElectrons := fNumIonElectrons this;
     fEfieldOffsets := fEfieldOffsets this |}.

Definition set_fNumScintPhotons (this : ISCalculationSeparate) (v : double) :=
  {| fLArProp := fLArProp this; fSCE := fSCE this; fDetProp := fDetProp this;
     fLArG4Prop := fLArG4Prop this;
     fScintYieldFactor := fScintYieldFactor this;
     fRecombA := fRecombA this; fRecombk := fRecombk this;
     fModBoxA := fModBoxA this; fModBoxB := fModBoxB this;
     fUseModBoxRecomb := fUseModBoxRecomb this;
     fEnergyDeposit := fEnergyDeposit this;
     fNumScintPhotons := v;
     fNumIonElectrons := fNumIonElectrons this;
     fEfieldOffsets := fEfieldOffsets this |}.

Definition set_fNumIonElectrons (this : ISCalculationSeparate) (v : double) :=
  {| fLArProp := fLArProp this; fSCE := fSCE this; fDetProp := fDetProp this;
     fLArG4Prop := fLArG4Prop this;
     fScintYieldFactor := fScintYieldFactor this;
     fRecombA := fRecombA this; fRecombk := fRecombk this;
     fModBoxA := fModBoxA this; fModBoxB := fModBoxB this;
     fUseModBoxRecomb := fUseModBoxRecomb this;
     fEnergyDeposit := fEnergyDeposit this;
     fNumScintPhotons := fNumScintPhotons this;
     fNumIonElectrons := v;
     fEfieldOffsets := fEfieldOffsets this |}.

Definition set_fEfieldOffsets (this : ISCalculationSeparate) (v : Vector_t) :=
  {| fLArProp := fLArProp this; fSCE := fSCE this; fDetProp := fDetProp this;
     fLArG4Prop := fLArG4Prop this;
     fScintYieldFactor := fScintYieldFactor this;
     fRecombA := fRecombA this; fRecombk := fRecombk this;
     fModBoxA := fModBoxA this; fModBoxB := fModBoxB this;
     fUseModBoxRecomb := fUseModBoxRecomb this;
     fEnergyDeposit := fEnergyDeposit this;
     fNumScintPhotons := fNumScintPhotons this;
     fNumIonElectrons := fNumIonElectrons this;
     fEfieldOffsets := v |}.

(** [void Reset()]. *)
Definition Reset (this : ISCalculationSeparate) : ISCalculationSeparate :=
  let this := set_fEnergyDeposit this dzero in
  let this := set_fNumScintPhotons this dzero in
  let this := set_fNumIonElectrons this dzero in
  this.

(** [void Initialize(larp, detp, lgp, sce)]: stores the four pointers, sets
    the yield factor to the literal [1.], copies the recombination
    constants, dividing [Recombk] and [ModBoxB] by the density at the
    detector temperature, and calls [Reset].  [fEfieldOffsets] is not
    assigned. *)
Definition Initialize (this : ISCalculationSeparate)
    (larp : LArProperties) (detp : DetectorProperties)
    (lgp : LArG4Parameters) (sce : SpaceCharge) : ISCalculationSeparate :=
  let this :=
    {| fLArProp := larp; fSCE := sce; fDetProp := detp; fLArG4Prop := lgp;
       fScintYieldFactor := dunit;
       fRecombA := RecombA lgp;
       fRecombk := Recombk lgp / Density detp (Temperature detp);
       fModBoxA := ModBoxA lgp;
       fModBoxB := ModBoxB lgp / Density detp (Temperature detp);
       fUseModBoxRecomb := UseModBoxRecomb lgp;
       fEnergyDeposit := fEnergyDeposit this;
       fNumScintPhotons := fNumScintPhotons this;
       fNumIonElectrons := fNumIonElectrons this;
       fEfieldOffsets := fEfieldOffsets this |} in
  Reset this.

(** [double EFieldAtStep(double efield, float x, float y, float z)]: returns
    the field and the object, whose [fEfieldOffsets] it assigns when the
    space charge service is enabled.  Under the square root the first term
    is a product; the second and third are sums. *)
Definition EFieldAtStep (this : ISCalculationSeparate) (efield : double)
    (x y z : single) : double * ISCalculationSeparate :=
  let EField := efield in
  if EnableSimEfieldSCE (fSCE this) then
    let this :=
      set_fEfieldOffsets this
        (GetEfieldOffsets (fSCE this)
           {| pt_X := widen x; pt_Y := widen y; pt_Z := widen z |}) in
    let EField :=
      dsqrt ((efield + efield * vec_X (fEfieldOffsets this))
               * (efield + efield * vec_X (fEfieldOffsets this))
             + (efield * vec_Y (fEfieldOffsets this)
                + efield * vec_Y (fEfieldOffsets this))
             + (efield * vec_Z (fEfieldOffsets this)
                + efield * vec_Z (fEfieldOffsets this))) in
    (EField, this)
  else (EField, this).

(** [void CalculateIonization(float e, float ds, float x, float y, float z)].
    [e/ds] is a division of two [float]s, converted to [double]; [if(ds)]
    tests [ds] against zero; the electron count is stored in
    [fNumIonElectrons].  The debug log line has no effect on the object. *)
Definition CalculateIonization (this : ISCalculationSeparate)
    (e ds x y z : single) : ISCalculationSeparate :=
  let recomb := dzero in
  let dEdx := widen (sdiv e ds) in
  let '(EFieldStep, this) :=
    EFieldAtStep this (Efield (fDetProp this)) x y z in
  let dEdx := if dEdx <? dunit then dunit else dEdx in
  let recomb :=
    if fUseModBoxRecomb this then
      if struth ds then
        let Xi := fModBoxB this * dEdx / EFieldStep in
        log (fModBoxA this + Xi) / Xi
      else dzero
    else
      RecombA (fLArG4Prop this)
      / (dunit + dEdx * fRecombk this / EFieldStep) in
  set_fNumIonElectrons this
    (GeVToElectrons (fLArG4Prop this) * dmilli * widen e * recomb).

(** [void CalculateIonization(sim::SimEnergyDeposit const&)]: the
    [double]s of the deposit are converted to the [float] parameters. *)
Definition CalculateIonization_edep (this : ISCalculationSeparate)
    (edep : SimEnergyDeposit) : ISCalculationSeparate :=
  CalculateIonization this (narrow (Energy edep)) (narrow (StepLength edep))
    (narrow (MidPointX edep)) (narrow (MidPointY edep))
    (narrow (MidPointZ edep)).

(** [void CalculateScintillation(float e, int pdg)]. *)
Definition CalculateScintillation (this : ISCalculationSeparate)
    (e : single) (pdg : Z) : ISCalculationSeparate :=
  let scintYield := ScintYield (fLArProp this) true in
  if ScintByParticleType (fLArProp this) then
    let scintYield :=
      match pdg with
      | 2212%Z => ProtonScintYield (fLArProp this) true
      | 13%Z | (-13)%Z => MuonScintYield (fLArProp this) true
      | 211%Z | (-211)%Z => PionScintYield (fLArProp this) true
      | 321%Z | (-321)%Z => KaonScintYield (fLArProp this) true
      | 1000020040%Z => AlphaScintYield (fLArProp this) true
      | 11%Z | (-11)%Z | 22%Z => ElectronScintYield (fLArProp this) true
      | _ => ElectronScintYield (fLArProp this) true
      end in
    set_fNumScintPhotons this (scintYield * widen e)
  else
    set_fNumScintPhotons this
      (fScintYieldFactor this * scintYield * widen e).

(** [void CalculateScintillation(sim::SimEnergyDeposit const&)]. *)
Definition CalculateScintillation_edep (this : ISCalculationSeparate)
    (edep : SimEnergyDeposit) : ISCalculationSeparate :=
  CalculateScintillation this (narrow (Energy edep)) (PdgCode edep).

(** [void CalculateIonizationAndScintillation(sim::SimEnergyDeposit const&)]. *)
Definition CalculateIonizationAndScintillation (this : ISCalculationSeparate)
    (edep : SimEnergyDeposit) : ISCalculationSeparate :=
  let this := set_fEnergyDeposit this (Energy edep) in
  let this := CalculateIonization_edep this edep in
  let this := CalculateScintillation_edep this edep in
  this.

(** [double EFieldAtStep(double efield, sim::SimEnergyDeposit const&)]. *)
Definition EFieldAtStep_edep (this : ISCalculationSeparate) (efield : double)
    (edep : SimEnergyDeposit) : double * ISCalculationSeparate :=
  EFieldAtStep this efield (narrow (MidPointX edep))
    (narrow (MidPointY edep)) (narrow (MidPointZ edep)).

End ISCalculationSeparate.

(** ** Values named in the statements *)

Section Observables.

Context {double single : Type} {A : Arith double single} {M : Libm double}.

Local Open Scope cxx_scope.

(** The local variable [dEdx] of [CalculateIonization] after the guard
    [if(dEdx < 1.) dEdx = 1.]. *)
Definition dEdx_guarded (e ds : single) : double :=
  let dEdx := widen (sdiv e ds) in
  if dEdx <? dunit then dunit else dEdx.

(** The local variable [recomb] of [CalculateIonization] as its branches
    compute it from the step length, [dEdx] and the field at the step. *)
Definition recomb_from (this : ISCalculationSeparate) (ds : single)
    (dEdx EFieldStep : double) : double :=
  if fUseModBoxRecomb this then
    if struth ds then
      let Xi := fModBoxB this * dEdx / EFieldStep in
      log (fModBoxA this + Xi) / Xi
    else dzero
  else
    RecombA (fLArG4Prop this) / (dunit + dEdx * fRecombk this / EFieldStep).

(** The configuration members and the service pointers, as one tuple. *)
Definition configuration (this : @ISCalculationSeparate double) :=
  (fLArProp this, fSCE this, fDetProp this, fLArG4Prop this,
   (fScintYieldFactor this, fRecombA this, fRecombk this,
    fModBoxA this, fModBoxB this, fUseModBoxRecomb this)).

(** The corrected field as the specification displays it: the [y] and
    [z] terms doubled and squared.  It follows the specification text, not
    the code, and is compared with [EFieldAtStep]. *)
Definition spec_corrected_field (efield : double) (o : Vector_t) : double :=
  dsqrt ((efield + efield * vec_X o) * (efield + efield * vec_X o)
         + (efield * vec_Y o + efield * vec_Y o)
           * (efield * vec_Y o + efield * vec_Y o)
         + (efield * vec_Z o + efield * vec_Z o)
           * (efield * vec_Z o + efield * vec_Z o)).

(** The species codes with a [case] label of their own in
    [CalculateScintillation]. *)
Definition listed_codes : list Z :=
  (2212 :: 13 :: -13 :: 211 :: -211 :: 321 :: -321 :: 1000020040
   :: 11 :: -11 :: 22 :: nil)%Z.

(** The yield table as the specification words it: a fixed mapping from
    species code to yield constant, with the electron yield as default. *)
Definition species_table (larp : LArProperties) : list (Z * double) :=
  (2212%Z, ProtonScintYield larp true)
  :: (13%Z, MuonScintYield larp true) :: ((-13)%Z, MuonScintYield larp true)
  :: (211%Z, PionScintYield larp true) :: ((-211)%Z, PionScintYield larp true)
  :: (321%Z, KaonScintYield larp true) :: ((-321)%Z, KaonScintYield larp true)
  :: (1000020040%Z, AlphaScintYield larp true)
  :: (11%Z, ElectronScintYield larp true)
  :: ((-11)%Z, ElectronScintYield larp true)
  :: (22%Z, ElectronScintYield larp true) :: nil.

Fixpoint lookup_code (pdg : Z) (t : list (Z * double)) : option double :=
  match t with
  | nil => None
  | (c, y) :: t' => if Z.eqb pdg c then Some y else lookup_code pdg t'
  end.

Definition selected_yield (larp : LArProperties) (pdg : Z) : double :=
  match lookup_code pdg (species_table larp) with
  | Some y => y
  | None => ElectronScintYield larp true
  end.

(** A call of a public method on an initialized object, and the object
    after it.  [Initialize] is not among them: it is the reconfiguration. *)
Inductive Call : Type :=
  | call_Reset
  | call_CalculateIonization (e ds x y z : single)
  | call_CalculateIonization_edep (edep : @SimEnergyDeposit double)
  | call_CalculateScintillation (e : single) (pdg : Z)
  | call_CalculateScintillation_edep (edep : @SimEnergyDeposit double)
  | call_CalculateIonizationAndScintillation (edep : @SimEnergyDeposit double)
  | call_EFieldAtStep (efield : double) (x y z : single)
  | call_EFieldAtStep_edep (efield : double) (edep : @SimEnergyDeposit double).

Definition invoke (this : ISCalculationSeparate) (c : Call)
    : ISCalculationSeparate :=
  match c with
  | call_Reset => Reset this
  | call_CalculateIonization e ds x y z => CalculateIonization this e ds x y z
  | call_CalculateIonization_edep edep => CalculateIonization_edep this edep
  | call_CalculateScintillation e pdg => CalculateScintillation this e pdg
  | call_CalculateScintillation_edep edep =>
      CalculateScintillation_edep this edep
  | call_CalculateIonizationAndScintillation edep =>
      CalculateIonizationAndScintillation this edep
  | call_EFieldAtStep efield x y z => snd (EFieldAtStep this efield x y z)
  | call_EFieldAtStep_edep efield edep =>
      snd (EFieldAtStep_edep this efield edep)
  end.

Definition invoke_all (this : ISCalculationSeparate) (cs : list Call)
    : ISCalculationSeparate :=
  fold_left invoke cs this.

End Observables.

(** ** Facts of arithmetic the statements rest on *)

(** What the proofs below use of an arithmetic: [1. < 1.] is false,
    multiplying by [1.] changes nothing, and a finite number times [0.]
    compares equal to [0.]. *)
Class ArithLaws {double single : Type} (A : Arith double single) : Prop := {
  dltb_one_one : dltb dunit dunit = false;
  dmul_one_l : forall y : double, dmul dunit y = y;
  dmul_zero_r :
    forall x : double, dfinite x = true -> deqb (dmul x dzero) dzero = true
}.

(** ** Sample configurations *)

(** Inputs on which the statements below are evaluated.  The constants are
    those of a liquid-argon detector: Birks constants 0.8 and 0.0486,
    modified-box constants 0.93 and 0.212, 4.237e7 electrons per GeV. *)

Module SampleIEEE.

Local Open Scope float_scope.

Definition larp (by_type : bool) : @LArProperties float := {|
  ScintYield := fun _ => 24000;
  ScintByParticleType := by_type;
  ProtonScintYield := fun _ => 19200;
  MuonScintYield := fun _ => 24000;
  PionScintYield := fun _ => 24000;
  KaonScintYield := fun _ => 24000;
  AlphaScintYield := fun _ => 16800;
  ElectronScintYield := fun _ => 20000 |}.

Definition detp : @DetectorProperties float := {|
  Efield := 0.5;
  Temperature := 87;
  Density := fun _ => 0x1.65604189374bcp+0 (* 1.396 *) |}.

Definition lgp (modbox : bool) : @LArG4Parameters float := {|
  RecombA := 0x1.999999999999ap-1 (* 0.8 *);
  Recombk := 0x1.8e219652bd3c3p-5 (* 0.0486 *);
  ModBoxA := 0x1.dc28f5c28f5c3p-1 (* 0.93 *);
  ModBoxB := 0x1.b22d0e5604189p-3 (* 0.212 *);
  UseModBoxRecomb := modbox;
  GeVToElectrons := 42370000 |}.

(** A space charge service answering the offsets (0, 0.25, 0) at every
    point. *)
Definition sce (enabled : bool) : @SpaceCharge float := {|
  EnableSimEfieldSCE := enabled;
  GetEfieldOffsets := fun _ => {| vec_X := 0; vec_Y := 0.25; vec_Z := 0 |} |}.

(** An object before [Initialize]: its members hold arbitrary values. *)
Definition fresh : @ISCalculationSeparate float := {|
  fLArProp := larp false; fSCE := sce false; fDetProp := detp;
  fLArG4Prop := lgp false;
  fScintYieldFactor := 7; fRecombA := 7; fRecombk := 7;
  fModBoxA := 7; fModBoxB := 7; fUseModBoxRecomb := true;
  fEnergyDeposit := 7; fNumScintPhotons := 7; fNumIonElectrons := 7;
  fEfieldOffsets := {| vec_X := 0; vec_Y := 0; vec_Z := 0 |} |}.

Definition calc (by_type modbox enabled : bool) : @ISCalculationSeparate float :=
  Initialize fresh (larp by_type) detp (lgp modbox) (sce enabled).

(** A [float] literal. *)
Definition f32 (d : float) : Binary32.t := Binary32.of_double d.

End SampleIEEE.

(** ** NucleonDecay_module.cc: the producer's [produce] and [beginRun] *)

(** The literals [1e9] and [-1e9] of the active volume search. *)
Class Literals1e9 (double : Type) := {
  d1e9 : double;
  dneg1e9 : double
}.

#[export] Instance IEEE_1e9 : Literals1e9 float := {
  d1e9 := 1000000000%float;
  dneg1e9 := (-1000000000)%float
}.

Module evgen.

Section NucleonDecay.

Import String.

Context {double single : Type} {A : Arith double single}
  {L9 : Literals1e9 double}.

Local Open Scope cxx_scope.

(** [geo::TPCGeo], through the six bounds the code asks for, and
    [geo::Geometry], through [NTPC()], [TPC(i)] and [DetectorName()]. *)
Record TPCGeo := {
  MinX : double; MaxX : double;
  MinY : double; MaxY : double;
  MinZ : double; MaxZ : double
}.

Record Geometry := {
  TPCs : list TPCGeo;
  DetectorName : String.string
}.

(** [TVector3] and [TLorentzVector] as the code builds them. *)
Record TVector3 := { tv_X : double; tv_Y : double; tv_Z : double }.

Record TLorentzVector := {
  lv_X : double; lv_Y : double; lv_Z : double; lv_T : double
}.

(** [genie::GHepParticle], through the accessors the loop calls. *)
Record GHepParticle := {
  Pdg : Z;
  FirstMother : Z;
  Mass : double;
  Status : Z;
  Px : double; Py : double; Pz : double; E : double;
  PolzIsSet : bool;
  GetPolarization : TVector3;
  RescatterCode : Z
}.

(** What [TIter::Next] hands out: the [dynamic_cast] to [GHepParticle]
    succeeds on the first kind and gives a null pointer on the second. *)
Inductive TObject : Type :=
  | obj_GHepParticle (part : GHepParticle)
  | obj_other.

(** [genie::Interaction::NDecay(target, decay, decayed_nucleon)]. *)
Record Interaction := {
  ndecay_target : Z;
  ndecay_mode : Z;
  ndecay_nucleon : Z
}.

(** [simb::MCParticle]: the constructor arguments and what the setters the
    loop calls store.  [Polarization] is [None] until [SetPolarization]. *)
Record MCParticle := {
  TrackId : Z;
  PdgCode : Z;
  Process : String.string;
  Mother : Z;
  ParticleMass : double;
  StatusCode : Z;
  Trajectory : list (TLorentzVector * TLorentzVector);
  Polarization : option TVector3;
  Rescatter : Z
}.

Definition new_MCParticle (trackId pdg : Z) (process : String.string)
    (mother : Z) (mass : double) (status : Z) : MCParticle :=
  {| TrackId := trackId; PdgCode := pdg; Process := process;
     Mother := mother; ParticleMass := mass; StatusCode := status;
     Trajectory := nil; Polarization := None; Rescatter := 0 |}.

Definition AddTrajectoryPoint (p : MCParticle) (pos mom : TLorentzVector)
    : MCParticle :=
  {| TrackId := TrackId p; PdgCode := PdgCode p; Process := Process p;
     Mother := Mother p; ParticleMass := ParticleMass p;
     StatusCode := StatusCode p;
     Trajectory := Trajectory p ++ (pos, mom) :: nil;
     Polarization := Polarization p; Rescatter := Rescatter p |}.

Definition SetPolarization (p : MCParticle) (polz : TVector3) : MCParticle :=
  {| TrackId := TrackId p; PdgCode := PdgCode p; Process := Process p;
     Mother := Mother p; ParticleMass := ParticleMass p;
     StatusCode := StatusCode p; Trajectory := Trajectory p;
     Polarization := Some polz; Rescatter := Rescatter p |}.

Definition SetRescatter (p : MCParticle) (code : Z) : MCParticle :=
  {| TrackId := TrackId p; PdgCode := PdgCode p; Process := Process p;
     Mother := Mother p; ParticleMass := ParticleMass p;
     StatusCode := StatusCode p; Trajectory := Trajectory p;
     Polarization := Polarization p; Rescatter := code |}.

(** [simb::Origin_t] and [simb::MCTruth]: the particle list and the origin;
    a new [MCTruth] has no particle. *)
Inductive Origin_t : Type :=
  | kUnknown | kBeamNeutrino | kCosmicRay | kSuperNovaNeutrino
  | kSingleParticle.

Record MCTruth := {
  Particles : list MCParticle;
  Origin : Origin_t
}.

Definition new_MCTruth : MCTruth := {| Particles := nil; Origin := kUnknown |}.

Definition Add (truth : MCTruth) (part : MCParticle) : MCTruth :=
  {| Particles := Particles truth ++ part :: nil; Origin := Origin truth |}.

Definition SetOrigin (truth : MCTruth) (o : Origin_t) : MCTruth :=
  {| Particles := Particles truth; Origin := o |}.

(** The data members of [evgen::NucleonDecay] that [produce] reads. *)
Record NucleonDecay := {
  gOptDecayMode : Z;
  dpdg : Z
}.

(** The running bounds of the active volume. *)
Record Bounds := {
  minx : double; maxx : double;
  miny : double; maxy : double;
  minz : double; maxz : double
}.

(** One pass of the body of the loop over the TPCs. *)
Definition widen_bounds (b : Bounds) (tpc : TPCGeo) : Bounds :=
  {| minx := if MinX tpc <? minx b then MinX tpc else minx b;
     maxx := if maxx b <? MaxX tpc then MaxX tpc else maxx b;
     miny := if MinY tpc <? miny b then MinY tpc else miny b;
     maxy := if maxy b <? MaxY tpc then MaxY tpc else maxy b;
     minz := if MinZ tpc <? minz b then MinZ tpc else minz b;
     maxz := if maxz b <? MaxZ tpc then MaxZ tpc else maxz b |}.

(** "Find boundary of active volume": the bounds start at [1e9] and
    [-1e9] and the loop runs over [TPC(0)] ... [TPC(NTPC()-1)]. *)
Definition active_volume (geo : Geometry) : Bounds :=
  fold_left widen_bounds (TPCs geo)
    {| minx := d1e9; maxx := dneg1e9;
       miny := d1e9; maxy := dneg1e9;
       minz := d1e9; maxz := dneg1e9 |}.

(** The body of the conversion loop up to [truth.Add]: the [MCParticle]
    built from one [GHepParticle], with the vertex and the track number. *)
Definition to_MCParticle (part : GHepParticle) (X0_ Y0_ Z0_ : double)
    (trackid : Z) : MCParticle :=
  let tpart :=
    new_MCParticle trackid (Pdg part) "primary"%string (FirstMother part)
      (Mass part) (Status part) in
  let pos := {| lv_X := X0_; lv_Y := Y0_; lv_Z := Z0_; lv_T := dzero |} in
  let mom :=
    {| lv_X := Px part; lv_Y := Py part; lv_Z := Pz part;
       lv_T := E part |} in
  let tpart := AddTrajectoryPoint tpart pos mom in
  let tpart :=
    if PolzIsSet part then SetPolarization tpart (GetPolarization part)
    else tpart in
  let tpart := SetRescatter tpart (RescatterCode part) in
  tpart.

(** The loop converting the particles of the record.  It ends when
    [Next()] returns null or an object that is not a [GHepParticle].
    [trackid] is an [int] counted up from 0; it is a [Z] here, which agrees
    with the code as long as the count stays below 2^31. *)
Fixpoint convert (items : list TObject) (X0_ Y0_ Z0_ : double) (trackid : Z)
    (truth : MCTruth) : MCTruth :=
  match items with
  | obj_GHepParticle part :: rest =>
      let tpart := to_MCParticle part X0_ Y0_ Z0_ trackid in
      let truth := Add truth tpart in
      convert rest X0_ Y0_ Z0_ (trackid + 1) truth
  | _ => truth
  end.

(** The two sources of random numbers, outside the repository, with their
    state passed explicitly: the GENIE generator behind [mcgen], which
    fills the record for an interaction, and [CLHEP::RandFlat::fire(a, b)]
    on the module's engine. *)
Variable GenieState : Type.
Variable ProcessEventRecord :
  GenieState -> Interaction -> list TObject * GenieState.
Variable Engine : Type.
Variable fire : Engine -> double -> double -> double * Engine.

(** The vertex [X0], [Y0], [Z0] (named with an underscore here, [Z0] being
    taken): three draws in this order, each between the bounds of the
    active volume. *)
Definition draw_vertex (b : Bounds) (engine : Engine)
    : double * double * double * Engine :=
  let '(X0_, engine) := fire engine (minx b) (maxx b) in
  let '(Y0_, engine) := fire engine (miny b) (maxy b) in
  let '(Z0_, engine) := fire engine (minz b) (maxz b) in
  (X0_, Y0_, Z0_, engine).

(** [void produce(art::Event&)]: returns the collection put into the event
    and the states of the two random sources.  The target is argon. *)
Definition produce (this : NucleonDecay) (geo : Geometry)
    (genie : GenieState) (engine : Engine)
    : list MCTruth * GenieState * Engine :=
  let target := 1000180400%Z in
  let decay := gOptDecayMode this in
  let interaction :=
    {| ndecay_target := target; ndecay_mode := decay;
       ndecay_nucleon := dpdg this |} in
  let '(event, genie) := ProcessEventRecord genie interaction in
  let truthcol := nil in
  let truth := new_MCTruth in
  let '(X0_, Y0_, Z0_, engine) := draw_vertex (active_volume geo) engine in
  let truth := convert event X0_ Y0_ Z0_ 0 truth in
  let truth := SetOrigin truth kUnknown in
  let truthcol := truthcol ++ truth :: nil in
  (truthcol, genie, engine).

(** [void beginRun(art::Run&)]: the detector name put into the run. *)
Definition beginRun (geo : Geometry) : String.string := DetectorName geo.

(** *** Values named in the statements *)

(** The particles the loop reaches: the leading [GHepParticle]s. *)
Fixpoint leading_particles (items : list TObject) : list GHepParticle :=
  match items with
  | obj_GHepParticle part :: rest => part :: leading_particles rest
  | _ => nil
  end.

(** A TPC is inside the bounds when none of the six comparisons of the
    loop body holds any more. *)
Definition inside (b : Bounds) (tpc : TPCGeo) : Prop :=
  (MinX tpc <? minx b) = false /\ (maxx b <? MaxX tpc) = false
  /\ (MinY tpc <? miny b) = false /\ (maxy b <? MaxY tpc) = false
  /\ (MinZ tpc <? minz b) = false /\ (maxz b <? MaxZ tpc) = false.

(** A bound is either its starting value or the value one of the TPCs
    has. *)
Definition start_or_attained (start bound : double)
    (f : TPCGeo -> double) (tpcs : list TPCGeo) : Prop :=
  bound = start \/ exists tpc, In tpc tpcs /\ bound = f tpc.

End NucleonDecay.

End evgen.

(** The order facts the active volume search rests on: [<] is irreflexive
    and transitive. *)
Class OrderLaws {double single : Type} (A : Arith double single) : Prop := {
  dltb_irrefl : forall x : double, dltb x x = false;
  dltb_trans :
    forall x y z : double,
    dltb x y = true -> dltb y z = true -> dltb x z = true
}.

(** A statement that holds whatever [std::log] computes in binary64. *)
Definition for_any_log (P : Libm float -> Prop) : Prop :=
  forall M : Libm float, P M.





(** ** More sample configurations *)

Module SampleMore.

Import String.

Local Open Scope float_scope.

(** A space charge service answering the offsets (0, -1, 0). *)
Definition sce_negative : @SpaceCharge float := {|
  EnableSimEfieldSCE := true;
  GetEfieldOffsets := fun _ => {| vec_X := 0; vec_Y := -1; vec_Z := 0 |} |}.

Definition calc_negative (modbox : bool) : @ISCalculationSeparate float :=
  Initialize SampleIEEE.fresh (SampleIEEE.larp false) SampleIEEE.detp
    (SampleIEEE.lgp modbox) sce_negative.

(** Two TPCs side by side in [x]. *)
Definition tpc_left : @evgen.TPCGeo float := {|
  evgen.MinX := -200; evgen.MaxX := 0;
  evgen.MinY := -100; evgen.MaxY := 100;
  evgen.MinZ := 0; evgen.MaxZ := 500 |}.

Definition tpc_right : @evgen.TPCGeo float := {|
  evgen.MinX := 0; evgen.MaxX := 200;
  evgen.MinY := -100; evgen.MaxY := 100;
  evgen.MinZ := 0; evgen.MaxZ := 500 |}.

Definition geo : @evgen.Geometry float := {|
  evgen.TPCs := tpc_left :: tpc_right :: nil;
  evgen.DetectorName := "sample"%string |}.

(** A decay record p -> e+ pi0 as the generator leaves it: the proton,
    the two decay products, an object of another class, and an entry
    behind it. *)
Definition ghep (pdg mother status : Z) (px py pz e mass : float)
    : @evgen.GHepParticle float := {|
  evgen.Pdg := pdg; evgen.FirstMother := mother; evgen.Mass := mass;
  evgen.Status := status;
  evgen.Px := px; evgen.Py := py; evgen.Pz := pz; evgen.E := e;
  evgen.PolzIsSet := false;
  evgen.GetPolarization :=
    {| evgen.tv_X := 0; evgen.tv_Y := 0; evgen.tv_Z := 0 |};
  evgen.RescatterCode := -1 |}.

Definition record : list (@evgen.TObject float) :=
  evgen.obj_GHepParticle (ghep 2212 (-1) 3 0 0 0 0.9375 0.9375)
  :: evgen.obj_GHepParticle (ghep (-11) 0 1 0.25 0 0.375 0.5 0)
  :: evgen.obj_GHepParticle (ghep 111 0 1 (-0.25) 0 (-0.375) 0.4375 0.125)
  :: evgen.obj_other
  :: evgen.obj_GHepParticle (ghep 22 2 1 0 0 0.125 0.125 0)
  :: nil.

(** A generator that leaves [record] whatever the interaction, and a flat
    distribution that returns the middle of the interval. *)
Definition generator (g : unit) (i : evgen.Interaction)
    : list (@evgen.TObject float) * unit :=
  (record, g).

Definition middle (engine : unit) (a b : float) : float * unit :=
  ((a + b) / 2, engine).

Definition module : evgen.NucleonDecay :=
  {| evgen.gOptDecayMode := 0; evgen.dpdg := 2212 |}.

(** The sample detector in the strong nominal field 5 kV/cm, in
    modified-box mode. *)
Definition detp_strong : @DetectorProperties float := {|
  Efield := 5;
  Temperature := 87;
  Density := fun _ => 0x1.65604189374bcp+0 (* 1.396 *) |}.

Definition calc_strong : @ISCalculationSeparate float :=
  Initialize SampleIEEE.fresh (SampleIEEE.larp false) detp_strong
    (SampleIEEE.lgp true) (SampleIEEE.sce false).




End SampleMore.

(** ** binary64 satisfies [ArithLaws] *)

(** Multiplying a mantissa by 2^52 adds 52 binary digits. *)
Lemma digits2_pos_shift52 (m : positive) :
  Z.pos (digits2_pos (Pos.mul 4503599627370496 m))
  = (Z.pos (digits2_pos m) + 52)%Z.
Proof.
  cbn [Pos.mul digits2_pos]. lia.
Qed.

(** A canonical mantissa is not shifted by the rounding step. *)
Lemma shr_fexp_canonical (m : positive) (e : Z) :
  fexp FloatOps.prec FloatOps.emax (Z.pos (digits2_pos m) + e) = e ->
  shr_fexp FloatOps.prec FloatOps.emax (Z.pos m) e loc_Exact
  = ({| shr_m := Z.pos m; shr_r := false; shr_s := false |}, e).
Proof.
  intros Hc. unfold shr_fexp, Zdigits2.
  rewrite Hc, Z.sub_diag. reflexivity.
Qed.

(** The product of a canonical mantissa with the mantissa of [1.] is
    shifted back by 52 places, with nothing lost. *)
Lemma shr_fexp_shift52 (m : positive) (e : Z) :
  fexp FloatOps.prec FloatOps.emax (Z.pos (digits2_pos m) + e) = e ->
  shr_fexp FloatOps.prec FloatOps.emax
    (Z.pos (Pos.mul 4503599627370496 m)) (-52 + e) loc_Exact
  = ({| shr_m := Z.pos m; shr_r := false; shr_s := false |}, e).
Proof.
  intros Hc. unfold shr_fexp, Zdigits2. rewrite digits2_pos_shift52.
  replace (Z.pos (digits2_pos m) + 52 + (-52 + e))%Z
    with (Z.pos (digits2_pos m) + e)%Z by lia.
  rewrite Hc.
  replace (e - (-52 + e))%Z with 52%Z by lia.
  unfold shr. cbn [iter_pos shr_1 orb]. f_equal. lia.
Qed.

Lemma SFmul_one_l (s : bool) (m : positive) (e : Z) :
  SpecFloat.bounded FloatOps.prec FloatOps.emax m e = true ->
  SFmul FloatOps.prec FloatOps.emax
    (S754_finite false 4503599627370496 (-52)) (S754_finite s m e)
  = S754_finite s m e.
Proof.
  unfold SpecFloat.bounded, canonical_mantissa. intros H.
  apply andb_prop in H. destruct H as [Hc He].
  apply Z.eqb_eq in Hc.
  unfold SFmul, binary_round_aux.
  rewrite (shr_fexp_shift52 m e Hc).
  cbn [shr_m loc_of_shr_record round_nearest_even].
  rewrite (shr_fexp_canonical m e Hc).
  cbn [shr_m]. rewrite He. reflexivity.
Qed.

(** [1. * y] is [y] for every binary64 [y]: zeros keep their sign,
    infinities and NaN are unchanged. *)
Lemma binary64_mul_one_l (y : float) : PrimFloat.mul 1%float y = y.
Proof.
  apply Prim2SF_inj. rewrite mul_spec.
  change (Prim2SF 1) with (S754_finite false 4503599627370496 (-52)).
  pose proof (Prim2SF_valid y) as Hv.
  destruct (Prim2SF y) as [s | s | | s m e]; try reflexivity.
  apply SFmul_one_l. exact Hv.
Qed.

(** [is_finite] excludes the infinities and NaN. *)
Lemma is_finite_spec (x : float) :
  is_finite x = true ->
  match Prim2SF x with
  | S754_zero _ | S754_finite _ _ _ => True
  | _ => False
  end.
Proof.
  unfold is_finite, is_nan, is_infinity.
  rewrite !eqb_spec, abs_spec.
  change (Prim2SF infinity) with (S754_infinity false).
  destruct (Prim2SF x) as [[] | [] | | [] m e];
    cbn; try discriminate; auto.
Qed.

(** A finite binary64 times [0.] is a zero of either sign. *)
Lemma binary64_mul_zero_r (x : float) :
  is_finite x = true ->
  PrimFloat.eqb (PrimFloat.mul x 0%float) 0%float = true.
Proof.
  intros Hx. apply is_finite_spec in Hx.
  rewrite eqb_spec, mul_spec.
  change (Prim2SF 0) with (S754_zero false).
  destruct (Prim2SF x) as [s | s | | s m e];
    try contradiction; reflexivity.
Qed.

#[export] Instance IEEE_laws : ArithLaws IEEE.
Proof.
  constructor.
  - reflexivity.
  - exact binary64_mul_one_l.
  - exact binary64_mul_zero_r.
Qed.

(** ** Properties of the methods *)

Section Properties.

Context {double single : Type} {A : Arith double single} {M : Libm double}.

Local Open Scope cxx_scope.

(** *** What each method leaves alone *)

(** [EFieldAtStep] assigns at most [fEfieldOffsets]. *)
Lemma EFieldAtStep_object (this : ISCalculationSeparate) (efield : double)
    (x y z : single) :
  snd (EFieldAtStep this efield x y z)
  = if EnableSimEfieldSCE (fSCE this)
    then set_fEfieldOffsets this
           (GetEfieldOffsets (fSCE this)
              {| pt_X := widen x; pt_Y := widen y; pt_Z := widen z |})
    else this.
Proof.
  unfold EFieldAtStep. destruct (EnableSimEfieldSCE (fSCE this)); reflexivity.
Qed.

(** [CalculateIonization] in terms of the values of its local variables. *)
Lemma CalculateIonization_locals (this : ISCalculationSeparate)
    (e ds x y z : single) :
  CalculateIonization this e ds x y z
  = let EF := EFieldAtStep this (Efield (fDetProp this)) x y z in
    set_fNumIonElectrons (snd EF)
      (GeVToElectrons (fLArG4Prop (snd EF)) * dmilli * widen e
       * recomb_from (snd EF) ds (dEdx_guarded e ds) (fst EF)).
Proof.
  unfold CalculateIonization, recomb_from, dEdx_guarded.
  destruct (EFieldAtStep this (Efield (fDetProp this)) x y z) as [F this'].
  reflexivity.
Qed.

Lemma EFieldAtStep_configuration (this : ISCalculationSeparate)
    (efield : double) (x y z : single) :
  configuration (snd (EFieldAtStep this efield x y z)) = configuration this.
Proof.
  rewrite EFieldAtStep_object.
  destruct (EnableSimEfieldSCE (fSCE this)); reflexivity.
Qed.

Lemma Reset_configuration (this : ISCalculationSeparate) :
  configuration (Reset this) = configuration this.
Proof.
  reflexivity.
Qed.

Lemma CalculateIonization_configuration (this : ISCalculationSeparate)
    (e ds x y z : single) :
  configuration (CalculateIonization this e ds x y z) = configuration this.
Proof.
  rewrite CalculateIonization_locals. cbv zeta.
  rewrite <- (EFieldAtStep_configuration this (Efield (fDetProp this)) x y z).
  reflexivity.
Qed.

Lemma CalculateScintillation_configuration (this : ISCalculationSeparate)
    (e : single) (pdg : Z) :
  configuration (CalculateScintillation this e pdg) = configuration this.
Proof.
  unfold CalculateScintillation.
  destruct (ScintByParticleType (fLArProp this)); reflexivity.
Qed.

(** No method other than [Initialize] assigns a configuration member or a
    service pointer. *)
Lemma invoke_configuration (this : ISCalculationSeparate) (c : Call) :
  configuration (invoke this c) = configuration this.
Proof.
  destruct c; cbn [invoke].
  - apply Reset_configuration.
  - apply CalculateIonization_configuration.
  - apply CalculateIonization_configuration.
  - apply CalculateScintillation_configuration.
  - apply CalculateScintillation_configuration.
  - unfold CalculateIonizationAndScintillation, CalculateScintillation_edep,
      CalculateIonization_edep.
    rewrite CalculateScintillation_configuration,
      CalculateIonization_configuration.
    reflexivity.
  - apply EFieldAtStep_configuration.
  - apply EFieldAtStep_configuration.
Qed.

Lemma invoke_all_configuration (cs : list Call) :
  forall this : ISCalculationSeparate,
  configuration (invoke_all this cs) = configuration this.
Proof.
  unfold invoke_all.
  induction cs as [| c cs IH]; intros this; cbn [fold_left].
  - reflexivity.
  - rewrite IH. apply invoke_configuration.
Qed.

(** *** Field at the step *)

(** C8.  With the space charge correction disabled, [EFieldAtStep] returns
    the nominal field it was given, whatever the position, and leaves the
    object as it was. *)
Theorem EFieldAtStep_disabled (this : ISCalculationSeparate)
    (efield : double) (x y z : single) :
  EnableSimEfieldSCE (fSCE this) = false ->
  EFieldAtStep this efield x y z = (efield, this).
Proof.
  intros Hoff. unfold EFieldAtStep. rewrite Hoff. reflexivity.
Qed.

(** C1, as the code has it.  With the correction enabled and offsets
    [(ox, oy, oz)] at the position, the field returned is the square root of
    [(E + E*ox)*(E + E*ox) + (E*oy + E*oy) + (E*oz + E*oz)]: the [x] term is
    squared, the [y] and [z] terms are doubled and not squared.  The offsets
    are also stored in [fEfieldOffsets]. *)
Theorem EFieldAtStep_enabled (this : ISCalculationSeparate)
    (efield : double) (x y z : single) :
  EnableSimEfieldSCE (fSCE this) = true ->
  let o :=
    GetEfieldOffsets (fSCE this)
      {| pt_X := widen x; pt_Y := widen y; pt_Z := widen z |} in
  EFieldAtStep this efield x y z
  = (dsqrt ((efield + efield * vec_X o) * (efield + efield * vec_X o)
            + (efield * vec_Y o + efield * vec_Y o)
            + (efield * vec_Z o + efield * vec_Z o)),
     set_fEfieldOffsets this o).
Proof.
  intros Hon o. unfold EFieldAtStep. rewrite Hon. reflexivity.
Qed.

(** *** Reset *)

(** C9.  [Reset] sets the deposited energy, the electron count and the
    photon count to zero and changes no other member: the recombination
    constants, the mode flag, the yield factor, the service pointers and the
    stored offsets are as before. *)
Theorem Reset_zeroes_results_only (this : ISCalculationSeparate) :
  fEnergyDeposit (Reset this) = dzero
  /\ fNumIonElectrons (Reset this) = dzero
  /\ fNumScintPhotons (Reset this) = dzero
  /\ fRecombA (Reset this) = fRecombA this
  /\ fRecombk (Reset this) = fRecombk this
  /\ fModBoxA (Reset this) = fModBoxA this
  /\ fModBoxB (Reset this) = fModBoxB this
  /\ fUseModBoxRecomb (Reset this) = fUseModBoxRecomb this
  /\ fScintYieldFactor (Reset this) = fScintYieldFactor this
  /\ ScintByParticleType (fLArProp (Reset this))
     = ScintByParticleType (fLArProp this)
  /\ configuration (Reset this) = configuration this
  /\ fEfieldOffsets (Reset this) = fEfieldOffsets this.
Proof.
  repeat split.
Qed.

(** *** Ionization *)

(** The electron count [CalculateIonization] stores. *)
Lemma CalculateIonization_count (this : ISCalculationSeparate)
    (e ds x y z : single) :
  fNumIonElectrons (CalculateIonization this e ds x y z)
  = GeVToElectrons (fLArG4Prop this) * dmilli * widen e
    * recomb_from this ds (dEdx_guarded e ds)
        (fst (EFieldAtStep this (Efield (fDetProp this)) x y z)).
Proof.
  rewrite CalculateIonization_locals. cbv zeta.
  rewrite EFieldAtStep_object.
  destruct (EnableSimEfieldSCE (fSCE this)); reflexivity.
Qed.

(** C4, as the code has it.  [CalculateIonization] returns nothing: it
    stores the electron count in [fNumIonElectrons] itself, and with the
    space charge correction enabled it also stores the offsets in
    [fEfieldOffsets].  It leaves the deposited energy, the photon count, the
    configuration and the service pointers as they were. *)
Theorem CalculateIonization_frame (this : ISCalculationSeparate)
    (e ds x y z : single) :
  let this' := CalculateIonization this e ds x y z in
  let EF := EFieldAtStep this (Efield (fDetProp this)) x y z in
  fNumIonElectrons this'
  = GeVToElectrons (fLArG4Prop this) * dmilli * widen e
    * recomb_from this ds (dEdx_guarded e ds) (fst EF)
  /\ fEfieldOffsets this'
     = (if EnableSimEfieldSCE (fSCE this)
        then GetEfieldOffsets (fSCE this)
               {| pt_X := widen x; pt_Y := widen y; pt_Z := widen z |}
        else fEfieldOffsets this)
  /\ fEnergyDeposit this' = fEnergyDeposit this
  /\ fNumScintPhotons this' = fNumScintPhotons this
  /\ configuration this' = configuration this.
Proof.
  intros this' EF. subst this' EF.
  split; [apply CalculateIonization_count |].
  rewrite CalculateIonization_locals. cbv zeta.
  rewrite EFieldAtStep_object.
  destruct (EnableSimEfieldSCE (fSCE this)); repeat split.
Qed.

(** The guard leaves a value that is not below [1.]. *)
Lemma dEdx_guarded_floor {L : ArithLaws A} (e ds : single) :
  (dEdx_guarded e ds <? dunit) = false.
Proof.
  unfold dEdx_guarded.
  destruct (widen (sdiv e ds) <? dunit) eqn:Hlt.
  - apply dltb_one_one.
  - exact Hlt.
Qed.

(** The guard and its use, over the interface: [<] does not find the
    guarded [dEdx] below [1.]; when it finds the quotient [e/ds] below [1.]
    the quotient is replaced by exactly [1.], otherwise it is kept; and the
    stored electron count is computed from that guarded value in both
    recombination modes. *)
Lemma dEdx_never_below_floor {L : ArithLaws A}
    (this : ISCalculationSeparate) (e ds x y z : single) :
  let raw := widen (sdiv e ds) in
  let EF := EFieldAtStep this (Efield (fDetProp this)) x y z in
  (dEdx_guarded e ds <? dunit) = false
  /\ ((raw <? dunit) = true -> dEdx_guarded e ds = dunit)
  /\ ((raw <? dunit) = false -> dEdx_guarded e ds = raw)
  /\ fNumIonElectrons (CalculateIonization this e ds x y z)
     = GeVToElectrons (fLArG4Prop this) * dmilli * widen e
       * (if fUseModBoxRecomb this then
            if struth ds then
              log (fModBoxA this
                   + fModBoxB this * dEdx_guarded e ds / fst EF)
              / (fModBoxB this * dEdx_guarded e ds / fst EF)
            else dzero
          else
            RecombA (fLArG4Prop this)
            / (dunit + dEdx_guarded e ds * fRecombk this / fst EF)).
Proof.
  intros raw EF. subst raw.
  split; [apply dEdx_guarded_floor |].
  split; [unfold dEdx_guarded; intros ->; reflexivity |].
  split; [unfold dEdx_guarded; intros ->; reflexivity |].
  rewrite CalculateIonization_count. reflexivity.
Qed.

(** C3.  In modified-box mode a step of zero length ([if(ds)] false) gives
    the survival fraction [0.], and the stored electron count is
    [GeVToElectrons * 1.e-3 * e * 0.], which compares equal to zero
    whenever [GeVToElectrons * 1.e-3 * e] is a finite number. *)
Theorem modbox_zero_step_no_electrons {L : ArithLaws A}
    (this : ISCalculationSeparate) (e ds x y z : single) :
  fUseModBoxRecomb this = true ->
  struth ds = false ->
  let EF := EFieldAtStep this (Efield (fDetProp this)) x y z in
  let this' := CalculateIonization this e ds x y z in
  recomb_from this ds (dEdx_guarded e ds) (fst EF) = dzero
  /\ fNumIonElectrons this'
     = GeVToElectrons (fLArG4Prop this) * dmilli * widen e * dzero
  /\ (dfinite (GeVToElectrons (fLArG4Prop this) * dmilli * widen e) = true ->
      deqb (fNumIonElectrons this') dzero = true).
Proof.
  intros Hmb Hds EF this'.
  assert (Hr : recomb_from this ds (dEdx_guarded e ds) (fst EF) = dzero).
  { unfold recomb_from. rewrite Hmb, Hds. reflexivity. }
  assert (Hn : fNumIonElectrons this'
               = GeVToElectrons (fLArG4Prop this) * dmilli * widen e * dzero).
  { subst this'. rewrite CalculateIonization_count.
    fold EF. rewrite Hr. reflexivity. }
  repeat split; try assumption.
  intros Hfin. rewrite Hn. apply dmul_zero_r. exact Hfin.
Qed.

(** C5.  After [Initialize], in Birks mode, the survival fraction is
    [RecombA / (1. + dEdx * k / F)] with [dEdx] the guarded quotient, [F]
    the field at the step and [k] the configured [Recombk] divided, in
    [Initialize], by the density at the detector temperature; the stored
    electron count is [GeVToElectrons * 1.e-3 * e] times that fraction. *)
Theorem birks_electron_count (this0 : ISCalculationSeparate)
    (larp : LArProperties) (detp : DetectorProperties)
    (lgp : LArG4Parameters) (sce : SpaceCharge) (e ds x y z : single) :
  UseModBoxRecomb lgp = false ->
  let this := Initialize this0 larp detp lgp sce in
  let F := fst (EFieldAtStep this (Efield detp) x y z) in
  let k := Recombk lgp / Density detp (Temperature detp) in
  let survival := RecombA lgp / (dunit + dEdx_guarded e ds * k / F) in
  fRecombk this = k
  /\ recomb_from this ds (dEdx_guarded e ds) F = survival
  /\ fNumIonElectrons (CalculateIonization this e ds x y z)
     = GeVToElectrons lgp * dmilli * widen e * survival.
Proof.
  intros Hbirks this F k survival.
  assert (Hr : recomb_from this ds (dEdx_guarded e ds) F = survival).
  { unfold recomb_from. subst this. cbn. rewrite Hbirks. reflexivity. }
  repeat split; try assumption.
  rewrite CalculateIonization_count.
  change (fst (EFieldAtStep this (Efield (fDetProp this)) x y z)) with F.
  rewrite Hr. reflexivity.
Qed.

(** *** Scintillation *)

(** The [switch] of [CalculateScintillation] selects what the table
    selects. *)
Lemma CalculateScintillation_by_type (this : ISCalculationSeparate)
    (e : single) (pdg : Z) :
  ScintByParticleType (fLArProp this) = true ->
  fNumScintPhotons (CalculateScintillation this e pdg)
  = selected_yield (fLArProp this) pdg * widen e.
Proof.
  intros Hby. unfold CalculateScintillation. rewrite Hby.
  cbn [fNumScintPhotons set_fNumScintPhotons]. f_equal.
  unfold selected_yield, species_table. cbn [lookup_code].
  repeat match goal with
         | |- context [Z.eqb pdg ?c] =>
             destruct (Z.eqb_spec pdg c) as [-> | ?]; [reflexivity |]
         end.
  destruct pdg as [| p | p]; try reflexivity;
    repeat (destruct p as [p | p |]; try reflexivity; try congruence).
Qed.

Lemma lookup_code_unlisted (larp : @LArProperties double) (pdg : Z) :
  ~ In pdg listed_codes -> lookup_code pdg (species_table larp) = None.
Proof.
  unfold listed_codes, species_table. cbn [In lookup_code]. intros Hout.
  repeat match goal with
         | |- context [Z.eqb pdg ?c] =>
             destruct (Z.eqb_spec pdg c) as [-> | ?]; [exfalso; tauto |]
         end.
  reflexivity.
Qed.

(** C6.  In per-species mode the photon count is the selected yield times
    the energy; the yield is selected by exact match of the code: 2212
    selects the proton yield, and a code with no label of its own selects
    the electron yield, the one code 11 selects. *)
Theorem per_species_photon_count (this : ISCalculationSeparate)
    (e : single) (pdg : Z) :
  ScintByParticleType (fLArProp this) = true ->
  fNumScintPhotons (CalculateScintillation this e pdg)
  = selected_yield (fLArProp this) pdg * widen e
  /\ fNumScintPhotons (CalculateScintillation this e 2212)
     = ProtonScintYield (fLArProp this) true * widen e
  /\ (~ In pdg listed_codes ->
      fNumScintPhotons (CalculateScintillation this e pdg)
      = ElectronScintYield (fLArProp this) true * widen e
      /\ fNumScintPhotons (CalculateScintillation this e pdg)
         = fNumScintPhotons (CalculateScintillation this e 11)).
Proof.
  intros Hby. split; [| split].
  - apply CalculateScintillation_by_type. exact Hby.
  - unfold CalculateScintillation. rewrite Hby. reflexivity.
  - intros Hout.
    assert (H11 : fNumScintPhotons (CalculateScintillation this e 11)
                  = ElectronScintYield (fLArProp this) true * widen e).
    { unfold CalculateScintillation. rewrite Hby. reflexivity. }
    rewrite H11, (CalculateScintillation_by_type this e pdg Hby).
    unfold selected_yield. rewrite (lookup_code_unlisted _ pdg Hout).
    split; reflexivity.
Qed.

(** C10.  [Initialize] sets the yield factor to the literal [1.] and no
    later call changes it, so on an initialized object, after any calls,
    with per-species mode off the photon count is [ScintYield(true) * e]:
    the factor does not scale it. *)
Theorem global_yield_factor_is_one {L : ArithLaws A}
    (this0 : ISCalculationSeparate)
    (larp : LArProperties) (detp : DetectorProperties)
    (lgp : LArG4Parameters) (sce : SpaceCharge) (cs : list Call)
    (e : single) (pdg : Z) :
  let this := invoke_all (Initialize this0 larp detp lgp sce) cs in
  fScintYieldFactor this = dunit
  /\ (ScintByParticleType larp = false ->
      fNumScintPhotons (CalculateScintillation this e pdg)
      = ScintYield larp true * widen e).
Proof.
  intros this.
  pose proof (invoke_all_configuration cs
                (Initialize this0 larp detp lgp sce)) as Hconf.
  fold this in Hconf. unfold configuration in Hconf. cbn in Hconf.
  injection Hconf as Hlarp _ _ _ Hfactor _ _ _ _ _.
  split; [exact Hfactor |].
  intros Hglobal. unfold CalculateScintillation.
  rewrite Hlarp, Hglobal, Hfactor.
  cbn [fNumScintPhotons set_fNumScintPhotons].
  rewrite dmul_one_l. reflexivity.
Qed.

End Properties.

(** ** The statements on the sample configurations: binary64 *)

Section OnIEEE.

Import SampleIEEE.

Local Open Scope float_scope.

(** C1, as the specification displays it, fails.  Nominal field 0.5 and
    offsets (0, 0.25, 0): the code returns [sqrt(0.25 + 0.25 + 0)], about
    0.707; the displayed formula, with the doubled [y] term squared, gives
    [sqrt(0.25 + 0.0625 + 0)], about 0.559. *)
Lemma spec_field_differs_from_code :
  dltb
    (spec_corrected_field 0.5 {| vec_X := 0; vec_Y := 0.25; vec_Z := 0 |})
    (fst (EFieldAtStep (calc false false true) 0.5 (f32 1) (f32 2) (f32 3)))
  = true.
Proof.
  vm_compute. reflexivity.
Qed.

Lemma EFieldAtStep_enabled_witness :
  fst (EFieldAtStep (calc false false true) 0.5 (f32 1) (f32 2) (f32 3))
  = PrimFloat.sqrt 0.5.
Proof.
  rewrite (EFieldAtStep_enabled (calc false false true) 0.5
             (f32 1) (f32 2) (f32 3) eq_refl).
  reflexivity.
Defined.

Lemma EFieldAtStep_disabled_witness :
  EFieldAtStep (calc false false false) 0.5 (f32 1) (f32 2) (f32 3)
  = (0.5, calc false false false).
Proof.
  apply (EFieldAtStep_disabled (calc false false false) 0.5
           (f32 1) (f32 2) (f32 3)).
  reflexivity.
Defined.

(** A proton of 2 MeV gives 2 * 19200 photons; a neutron (2112), which has
    no label of its own, gives 2 * 20000, the electron yield. *)
Lemma per_species_photon_count_witness :
  fNumScintPhotons
    (CalculateScintillation (calc true false false) (f32 2) 2212) = 38400
  /\ fNumScintPhotons
       (CalculateScintillation (calc true false false) (f32 2) 2112) = 40000.
Proof.
  destruct (per_species_photon_count (calc true false false) (f32 2) 2112
              eq_refl) as (_ & Hproton & Hother).
  split; [exact Hproton |].
  apply Hother. unfold listed_codes. cbn [In]. lia.
Defined.

(** What the quotient [e/ds] and the guard do at zero step length in
    binary32 and binary64: a positive energy gives [+inf], which is not
    below [1.] and stays; a negative energy gives [-inf], replaced by [1.];
    [0/0] is NaN, which no comparison finds below [1.]. *)
Example guard_zero_step_positive_energy :
  dEdx_guarded (f32 5) (f32 0) = infinity.
Proof.
  vm_compute. reflexivity.
Qed.

Example guard_zero_step_negative_energy :
  dEdx_guarded (f32 (-5)) (f32 0) = 1.
Proof.
  vm_compute. reflexivity.
Qed.

Example guard_zero_step_zero_energy :
  dEdx_guarded (f32 0) (f32 0) = nan.
Proof.
  vm_compute. reflexivity.
Qed.

(** With per-species mode off, a muon of 2 MeV gives 1. * 24000 * 2
    photons, also after earlier calls. *)
Example binary64_global_yield (M : Libm float) :
  fNumScintPhotons
    (CalculateScintillation
       (invoke_all (calc false false false)
          (call_CalculateIonization (f32 2) (f32 0.5) (f32 1) (f32 2) (f32 3)
           :: call_Reset :: nil))
       (f32 2) 13) = 48000.
Proof.
  vm_compute. reflexivity.
Qed.

(** The scenario of the specification: 5 MeV over a step of zero length in
    modified-box mode stores zero electrons, whatever [std::log] is. *)
Example binary64_modbox_zero_step (M : Libm float) :
  fNumIonElectrons
    (CalculateIonization (calc false true false) (f32 5) (f32 0)
       (f32 1) (f32 2) (f32 3)) = 0.
Proof.
  vm_compute. reflexivity.
Qed.

(** An infinite energy is outside the statement about zero steps: the
    product with [0.] is NaN. *)
Example binary64_modbox_zero_step_infinite_energy (M : Libm float) :
  fNumIonElectrons
    (CalculateIonization (calc false true false) (f32 infinity) (f32 0)
       (f32 1) (f32 2) (f32 3)) = nan.
Proof.
  vm_compute. reflexivity.
Qed.

(** The quotient [e/ds] is a [float] and overflows as one: in Birks mode
    with a step of 0.5 cm, 1 MeV stores a positive count, while the energy
    3e38 MeV, whose quotient overflows binary32, stores zero. *)
Example binary64_overflow_stores_zero (M : Libm float) :
  (0 <? fNumIonElectrons
          (CalculateIonization (calc false false false) (f32 1) (f32 0.5)
             (f32 1) (f32 2) (f32 3))) = true
  /\ fNumIonElectrons
       (CalculateIonization (calc false false false) (f32 0x1.c363ccp+127)
          (f32 0.5) (f32 1) (f32 2) (f32 3)) = 0.
Proof.
  vm_compute. split; reflexivity.
Qed.

(** C4, as the specification states it, fails.  In Birks mode, after
    [Initialize] the electron count is zero; the call for 2 MeV over 0.5 cm
    leaves a positive count in [fNumIonElectrons]. *)
Lemma CalculateIonization_writes_electron_count :
  fNumIonElectrons (calc false false false) = 0
  /\ for_any_log (fun M =>
       (0 <? fNumIonElectrons
               (CalculateIonization (calc false false false) (f32 2) (f32 0.5)
                  (f32 1) (f32 2) (f32 3))) = true).
Proof.
  split; [reflexivity |].
  intros M. vm_compute. reflexivity.
Qed.

(** The scenario of the specification: 5 MeV over a step of zero length
    in modified-box mode. *)
Lemma modbox_zero_step_no_electrons_witness :
  for_any_log (fun M =>
    (fNumIonElectrons
       (CalculateIonization (calc false true false) (f32 5) (f32 0)
          (f32 1) (f32 2) (f32 3)) =? 0) = true).
Proof.
  intros M.
  destruct (modbox_zero_step_no_electrons (L := IEEE_laws)
              (calc false true false) (f32 5) (f32 0) (f32 1) (f32 2) (f32 3)
              eq_refl eq_refl) as (_ & _ & Hzero).
  apply Hzero. reflexivity.
Defined.

(** 2 MeV over 0.5 cm in Birks mode, in the nominal field 0.5 kV/cm. *)
Lemma birks_electron_count_witness :
  for_any_log (fun M =>
    fNumIonElectrons
      (CalculateIonization (calc false false false) (f32 2) (f32 0.5)
         (f32 1) (f32 2) (f32 3))
    = 42370000 * 0x1.0624dd2f1a9fcp-10 * 2
      * (0x1.999999999999ap-1
         / (1 + dEdx_guarded (f32 2) (f32 0.5)
                * (0x1.8e219652bd3c3p-5 / 0x1.65604189374bcp+0) / 0.5))).
Proof.
  intros M.
  destruct (birks_electron_count fresh (larp false) detp (lgp false)
              (sce false) (f32 2) (f32 0.5) (f32 1) (f32 2) (f32 3) eq_refl)
    as (_ & _ & Hcount).
  exact Hcount.
Defined.

(** A muon of 2 MeV on an object that has processed a deposit and been
    reset, global mode: 24000 * 2 photons. *)
Lemma global_yield_factor_is_one_witness :
  for_any_log (fun M =>
    fNumScintPhotons
      (CalculateScintillation
         (invoke_all (calc false false false)
            (call_CalculateIonization (f32 2) (f32 0.5) (f32 1) (f32 2) (f32 3)
             :: call_Reset :: nil))
         (f32 2) 13) = 48000).
Proof.
  intros M.
  rewrite (proj2 (global_yield_factor_is_one (L := IEEE_laws) fresh
                    (larp false) detp (lgp false) (sce false)
                    (call_CalculateIonization (f32 2) (f32 0.5)
                       (f32 1) (f32 2) (f32 3)
                     :: call_Reset :: nil) (f32 2) 13) eq_refl).
  reflexivity.
Defined.

End OnIEEE.

(** ** More of the code: order facts of binary64 *)

(** [SFcompare] orders finite numbers of one sign by exponent, then by
    mantissa. *)
Lemma lex_lt_trans (e1 e2 e3 : Z) (m1 m2 m3 : positive) :
  match Z.compare e1 e2 with
  | Lt => Lt | Gt => Gt | Eq => Pos.compare_cont Eq m1 m2 end = Lt ->
  match Z.compare e2 e3 with
  | Lt => Lt | Gt => Gt | Eq => Pos.compare_cont Eq m2 m3 end = Lt ->
  match Z.compare e1 e3 with
  | Lt => Lt | Gt => Gt | Eq => Pos.compare_cont Eq m1 m3 end = Lt.
Proof.
  change (Pos.compare_cont Eq m1 m2) with (Pos.compare m1 m2).
  change (Pos.compare_cont Eq m2 m3) with (Pos.compare m2 m3).
  change (Pos.compare_cont Eq m1 m3) with (Pos.compare m1 m3).
  intros H12 H23.
  destruct (Z.compare_spec e1 e2); try discriminate;
    destruct (Z.compare_spec e2 e3); try discriminate;
    destruct (Z.compare_spec e1 e3); try reflexivity; try lia.
  rewrite Pos.compare_lt_iff in *. lia.
Qed.

Lemma lex_gt_trans (e1 e2 e3 : Z) (m1 m2 m3 : positive) :
  match Z.compare e1 e2 with
  | Lt => Gt | Gt => Lt
  | Eq => CompOpp (Pos.compare_cont Eq m1 m2) end = Lt ->
  match Z.compare e2 e3 with
  | Lt => Gt | Gt => Lt
  | Eq => CompOpp (Pos.compare_cont Eq m2 m3) end = Lt ->
  match Z.compare e1 e3 with
  | Lt => Gt | Gt => Lt
  | Eq => CompOpp (Pos.compare_cont Eq m1 m3) end = Lt.
Proof.
  change (Pos.compare_cont Eq m1 m2) with (Pos.compare m1 m2).
  change (Pos.compare_cont Eq m2 m3) with (Pos.compare m2 m3).
  change (Pos.compare_cont Eq m1 m3) with (Pos.compare m1 m3).
  intros H12 H23.
  destruct (Z.compare_spec e1 e2); try discriminate;
    destruct (Z.compare_spec e2 e3); try discriminate;
    destruct (Z.compare_spec e1 e3); try reflexivity; try lia.
  destruct (Pos.compare_spec m1 m2); try discriminate;
    destruct (Pos.compare_spec m2 m3); try discriminate;
    destruct (Pos.compare_spec m1 m3); try reflexivity; lia.
Qed.

(** [<] on floating-point numbers is transitive and irreflexive; NaN is
    below nothing and nothing is below it. *)
Lemma SFltb_trans (x y z : spec_float) :
  SFltb x y = true -> SFltb y z = true -> SFltb x z = true.
Proof.
  unfold SFltb.
  destruct x as [sx | sx | | sx mx ex], y as [sy | sy | | sy my ey],
    z as [sz | sz | | sz mz ez]; cbn;
    try destruct sx; try destruct sy; try destruct sz;
    try discriminate; try reflexivity.
  - intros H12 H23.
    destruct (match Z.compare ex ey with
              | Lt => Gt | Gt => Lt
              | Eq => CompOpp (Pos.compare_cont Eq mx my) end) eqn:E12;
      try discriminate.
    destruct (match Z.compare ey ez with
              | Lt => Gt | Gt => Lt
              | Eq => CompOpp (Pos.compare_cont Eq my mz) end) eqn:E23;
      try discriminate.
    rewrite (lex_gt_trans _ _ _ _ _ _ E12 E23). reflexivity.
  - intros H12 H23.
    destruct (match Z.compare ex ey with
              | Lt => Lt | Gt => Gt
              | Eq => Pos.compare_cont Eq mx my end) eqn:E12;
      try discriminate.
    destruct (match Z.compare ey ez with
              | Lt => Lt | Gt => Gt
              | Eq => Pos.compare_cont Eq my mz end) eqn:E23;
      try discriminate.
    rewrite (lex_lt_trans _ _ _ _ _ _ E12 E23). reflexivity.
Qed.

Lemma SFltb_irrefl (x : spec_float) : SFltb x x = false.
Proof.
  unfold SFltb. destruct x as [[] | [] | | [] m e]; cbn; try reflexivity.
  - rewrite Z.compare_refl.
    change (Pos.compare_cont Eq m m) with (Pos.compare m m).
    rewrite Pos.compare_refl. reflexivity.
  - rewrite Z.compare_refl.
    change (Pos.compare_cont Eq m m) with (Pos.compare m m).
    rewrite Pos.compare_refl. reflexivity.
Qed.

Lemma binary64_ltb_irrefl (x : float) : PrimFloat.ltb x x = false.
Proof.
  rewrite ltb_spec. apply SFltb_irrefl.
Qed.

Lemma binary64_ltb_trans (x y z : float) :
  PrimFloat.ltb x y = true -> PrimFloat.ltb y z = true ->
  PrimFloat.ltb x z = true.
Proof.
  rewrite !ltb_spec. apply SFltb_trans.
Qed.

#[export] Instance IEEE_order : OrderLaws IEEE.
Proof.
  constructor.
  - exact binary64_ltb_irrefl.
  - exact binary64_ltb_trans.
Qed.

(** ** More of the code: the calculator across calls *)

Section MoreProperties.
Context {double single : Type} {A : Arith double single} {M : Libm double}.
Local Open Scope cxx_scope.

(** Two objects with the same configuration, and the same stored offsets
    when the correction is off, are left equal by a deposit. *)
Lemma process_congruence (s1 s2 : ISCalculationSeparate)
    (edep : SimEnergyDeposit) :
  configuration s1 = configuration s2 ->
  (EnableSimEfieldSCE (fSCE s1) = false ->
   fEfieldOffsets s1 = fEfieldOffsets s2) ->
  CalculateIonizationAndScintillation s1 edep
  = CalculateIonizationAndScintillation s2 edep.
Proof.
  destruct s1, s2. unfold configuration. cbn. intros Hc Ho.
  injection Hc as -> -> -> -> -> -> -> -> -> ->.
  unfold CalculateIonizationAndScintillation, CalculateScintillation_edep,
    CalculateIonization_edep, CalculateScintillation, CalculateIonization,
    EFieldAtStep.
  cbn.
  destruct (EnableSimEfieldSCE fSCE1) eqn:Hsce; cbn.
  - destruct (ScintByParticleType fLArProp1); reflexivity.
  - rewrite (Ho eq_refl).
    destruct (ScintByParticleType fLArProp1); reflexivity.
Qed.

Lemma invoke_offsets (this : ISCalculationSeparate) (c : Call) :
  EnableSimEfieldSCE (fSCE this) = false ->
  fEfieldOffsets (invoke this c) = fEfieldOffsets this.
Proof.
  intros Hoff.
  destruct c; cbn [invoke];
    unfold CalculateIonizationAndScintillation, CalculateScintillation_edep,
      CalculateIonization_edep, EFieldAtStep_edep, CalculateScintillation,
      CalculateIonization, EFieldAtStep;
    cbn; rewrite ?Hoff; cbn;
    try destruct (ScintByParticleType (fLArProp this)); reflexivity.
Qed.

Lemma configuration_fSCE (s1 s2 : @ISCalculationSeparate double) :
  configuration s1 = configuration s2 -> fSCE s1 = fSCE s2.
Proof.
  unfold configuration. intros H. injection H as _ H _ _ _ _ _ _ _ _. exact H.
Qed.

Lemma invoke_all_offsets (cs : list Call) :
  forall this : ISCalculationSeparate,
  EnableSimEfieldSCE (fSCE this) = false ->
  fEfieldOffsets (invoke_all this cs) = fEfieldOffsets this.
Proof.
  unfold invoke_all.
  induction cs as [| c cs IH]; intros this Hoff; cbn [fold_left].
  - reflexivity.
  - rewrite IH.
    + apply invoke_offsets. exact Hoff.
    + rewrite (configuration_fSCE _ _ (invoke_configuration this c)).
      exact Hoff.
Qed.

(** X1.  The object [CalculateIonizationAndScintillation] leaves does not
    depend on the calls made since [Initialize]: after any sequence of
    calls, a deposit leaves the object it would leave without them.  So a
    deposit processed twice leaves what it leaves processed once, and a
    [Reset] before a deposit changes nothing. *)
Theorem process_forgets_history (this : ISCalculationSeparate)
    (cs : list Call) (edep : SimEnergyDeposit) :
  CalculateIonizationAndScintillation (invoke_all this cs) edep
  = CalculateIonizationAndScintillation this edep.
Proof.
  apply process_congruence.
  - apply invoke_all_configuration.
  - intros Hoff. apply invoke_all_offsets.
    rewrite <- (configuration_fSCE _ _ (invoke_all_configuration cs this)).
    exact Hoff.
Qed.

(** X2.  [CalculateIonization] and [CalculateScintillation] commute: in
    either order the two calls leave the same object. *)
Theorem calculations_commute (this : ISCalculationSeparate)
    (e ds x y z e' : single) (pdg : Z) :
  CalculateScintillation (CalculateIonization this e ds x y z) e' pdg
  = CalculateIonization (CalculateScintillation this e' pdg) e ds x y z.
Proof.
  unfold CalculateScintillation, CalculateIonization, EFieldAtStep.
  destruct (EnableSimEfieldSCE (fSCE this)) eqn:Hsce;
    destruct (ScintByParticleType (fLArProp this)) eqn:Hby;
    cbn; rewrite ?Hsce, ?Hby; cbn; reflexivity.
Qed.

(** X3.  [CalculateIonizationAndScintillation] overwrites the deposited
    energy with the deposit's (it does not add to it) and leaves the
    electron and photon counts the two calculations leave when each is
    called alone on the deposit. *)
Theorem process_agrees_with_separate_calls (this : ISCalculationSeparate)
    (edep : SimEnergyDeposit) :
  let this' := CalculateIonizationAndScintillation this edep in
  fEnergyDeposit this' = Energy edep
  /\ fNumIonElectrons this'
     = fNumIonElectrons (CalculateIonization_edep this edep)
  /\ fNumScintPhotons this'
     = fNumScintPhotons (CalculateScintillation_edep this edep).
Proof.
  intros this'. subst this'.
  unfold CalculateIonizationAndScintillation, CalculateScintillation_edep,
    CalculateIonization_edep, CalculateScintillation, CalculateIonization,
    EFieldAtStep.
  destruct (EnableSimEfieldSCE (fSCE this)) eqn:Hsce;
    destruct (ScintByParticleType (fLArProp this)) eqn:Hby;
    cbn; rewrite ?Hsce; cbn; rewrite ?Hby; cbn; repeat split.
Qed.

Lemma selected_yield_antiparticle (larp : @LArProperties double) (pdg : Z) :
  Z.abs pdg <> 2212%Z -> Z.abs pdg <> 1000020040%Z ->
  selected_yield larp (- pdg) = selected_yield larp pdg.
Proof.
  intros Hp Ha.
  destruct (Z.eq_dec pdg 13) as [-> |]; [reflexivity |].
  destruct (Z.eq_dec pdg (-13)) as [-> |]; [reflexivity |].
  destruct (Z.eq_dec pdg 211) as [-> |]; [reflexivity |].
  destruct (Z.eq_dec pdg (-211)) as [-> |]; [reflexivity |].
  destruct (Z.eq_dec pdg 321) as [-> |]; [reflexivity |].
  destruct (Z.eq_dec pdg (-321)) as [-> |]; [reflexivity |].
  destruct (Z.eq_dec pdg 11) as [-> |]; [reflexivity |].
  destruct (Z.eq_dec pdg (-11)) as [-> |]; [reflexivity |].
  destruct (Z.eq_dec pdg 22) as [-> |]; [reflexivity |].
  destruct (Z.eq_dec pdg (-22)) as [-> |]; [reflexivity |].
  unfold selected_yield.
  rewrite !lookup_code_unlisted; [reflexivity | |];
    unfold listed_codes; cbn [In]; lia.
Qed.

(** X4.  In per-species mode a particle and its antiparticle give the same
    photon count, except the proton and the alpha: the codes -2212 and
    -1000020040 have no label and get the electron yield. *)
Theorem antiparticle_photon_count (this : ISCalculationSeparate)
    (e : single) (pdg : Z) :
  ScintByParticleType (fLArProp this) = true ->
  (Z.abs pdg <> 2212%Z -> Z.abs pdg <> 1000020040%Z ->
   fNumScintPhotons (CalculateScintillation this e (- pdg))
   = fNumScintPhotons (CalculateScintillation this e pdg))
  /\ fNumScintPhotons (CalculateScintillation this e (-2212))
     = ElectronScintYield (fLArProp this) true * widen e
  /\ fNumScintPhotons (CalculateScintillation this e (-1000020040))
     = ElectronScintYield (fLArProp this) true * widen e.
Proof.
  intros Hby. split; [| split].
  - intros Hp Ha. rewrite !CalculateScintillation_by_type by exact Hby.
    rewrite selected_yield_antiparticle by assumption. reflexivity.
  - unfold CalculateScintillation. rewrite Hby. reflexivity.
  - unfold CalculateScintillation. rewrite Hby. reflexivity.
Qed.
(** X15.  No call other than [Initialize] changes the configuration: after
    any sequence of calls the recombination constants, the mode flag, the
    yield factor and the service pointers are those the object had; with
    the space charge correction off the stored offsets are kept as well. *)
Theorem calls_keep_configuration (this : ISCalculationSeparate)
    (cs : list Call) :
  configuration (invoke_all this cs) = configuration this
  /\ (EnableSimEfieldSCE (fSCE this) = false ->
      fEfieldOffsets (invoke_all this cs) = fEfieldOffsets this).
Proof.
  split.
  - apply invoke_all_configuration.
  - apply invoke_all_offsets.
Qed.

End MoreProperties.

(** ** More of the code: binary64 edge cases of the calculator *)

Section Binary64Edges.
Local Open Scope float_scope.

(** A binary64 below zero is a negative finite number or [-inf]; its
    square root is NaN, and NaN absorbs the operations it enters. *)
Lemma binary64_negative_spec (x : float) :
  (x <? 0) = true ->
  Prim2SF x = S754_infinity true
  \/ exists m e, Prim2SF x = S754_finite true m e.
Proof.
  rewrite ltb_spec. change (Prim2SF 0) with (S754_zero false).
  destruct (Prim2SF x) as [s | [] | | [] m e]; cbn; try discriminate.
  - left. reflexivity.
  - right. exists m, e. reflexivity.
Qed.

Lemma binary64_sqrt_negative (x : float) :
  (x <? 0) = true -> PrimFloat.sqrt x = nan.
Proof.
  intros Hx. apply Prim2SF_inj. rewrite sqrt_spec.
  destruct (binary64_negative_spec x Hx) as [-> | (m & e & ->)]; reflexivity.
Qed.

Lemma binary64_div_nan_r (x : float) : x / nan = nan.
Proof.
  apply Prim2SF_inj. rewrite div_spec.
  change (Prim2SF nan) with S754_nan.
  destruct (Prim2SF x); reflexivity.
Qed.

Lemma binary64_add_nan_r (x : float) : x + nan = nan.
Proof.
  apply Prim2SF_inj. rewrite add_spec.
  change (Prim2SF nan) with S754_nan.
  destruct (Prim2SF x); reflexivity.
Qed.

Lemma binary64_mul_nan_r (x : float) : x * nan = nan.
Proof.
  apply Prim2SF_inj. rewrite mul_spec.
  change (Prim2SF nan) with S754_nan.
  destruct (Prim2SF x); reflexivity.
Qed.

Lemma EFieldAtStep_nan (this : @ISCalculationSeparate float)
    (efield : float) (x y z : Binary32.t) :
  EnableSimEfieldSCE (fSCE this) = true ->
  let o :=
    GetEfieldOffsets (fSCE this)
      {| pt_X := widen x; pt_Y := widen y; pt_Z := widen z |} in
  ((efield + efield * vec_X o) * (efield + efield * vec_X o)
   + (efield * vec_Y o + efield * vec_Y o)
   + (efield * vec_Z o + efield * vec_Z o) <? 0) = true ->
  fst (EFieldAtStep this efield x y z) = nan.
Proof.
  intros Hon o Hneg. unfold EFieldAtStep. rewrite Hon. cbn.
  apply binary64_sqrt_negative. exact Hneg.
Qed.

(** X5.  In binary64, with the correction enabled, [EFieldAtStep] returns
    NaN whenever the sum under the root is below zero.  The [y] and [z]
    terms enter that sum unsquared, so negative offsets can make it
    negative. *)
Theorem negative_radicand_gives_nan_field
    (this : @ISCalculationSeparate float) (efield : float)
    (x y z : Binary32.t) :
  EnableSimEfieldSCE (fSCE this) = true ->
  let o :=
    GetEfieldOffsets (fSCE this)
      {| pt_X := widen x; pt_Y := widen y; pt_Z := widen z |} in
  ((efield + efield * vec_X o) * (efield + efield * vec_X o)
   + (efield * vec_Y o + efield * vec_Y o)
   + (efield * vec_Z o + efield * vec_Z o) <? 0) = true ->
  fst (EFieldAtStep this efield x y z) = nan.
Proof.
  exact (EFieldAtStep_nan this efield x y z).
Qed.

(** X6.  In binary64, when the field at the step is NaN the stored electron
    count is NaN, in Birks mode and in modified-box mode with a non-zero
    step, whatever [std::log] returns. *)
Theorem nan_field_gives_nan_electrons {M : Libm float}
    (this : @ISCalculationSeparate float) (e ds x y z : Binary32.t) :
  fst (EFieldAtStep this (Efield (fDetProp this)) x y z) = nan ->
  fUseModBoxRecomb this = false \/ struth ds = true ->
  fNumIonElectrons (CalculateIonization this e ds x y z) = nan.
Proof.
  intros Hnan Hmode. rewrite CalculateIonization_count, Hnan.
  unfold recomb_from. cbn.
  destruct (fUseModBoxRecomb this).
  - destruct Hmode as [Hm | Hds]; [discriminate |].
    cbn in Hds. rewrite Hds.
    rewrite !binary64_div_nan_r. apply binary64_mul_nan_r.
  - rewrite binary64_div_nan_r, binary64_add_nan_r, binary64_div_nan_r.
    apply binary64_mul_nan_r.
Qed.

(** Arithmetic with [+inf] as the Birks formula meets it. *)
Lemma binary64_positive_finite_spec (x : float) :
  is_finite x = true -> (0 <? x) = true ->
  exists m e, Prim2SF x = S754_finite false m e.
Proof.
  intros Hf Hp. apply is_finite_spec in Hf.
  rewrite ltb_spec in Hp. change (Prim2SF 0) with (S754_zero false) in Hp.
  destruct (Prim2SF x) as [s | s | | [] m e]; cbn in Hp;
    try contradiction; try discriminate.
  exists m, e. reflexivity.
Qed.

Lemma binary64_infinity_mul (k : float) :
  is_finite k = true -> (0 <? k) = true -> infinity * k = infinity.
Proof.
  intros Hf Hp.
  destruct (binary64_positive_finite_spec k Hf Hp) as (m & e & Hk).
  apply Prim2SF_inj. rewrite mul_spec, Hk. reflexivity.
Qed.

Lemma binary64_infinity_div (F : float) :
  is_finite F = true -> (0 <? F) = true -> infinity / F = infinity.
Proof.
  intros Hf Hp.
  destruct (binary64_positive_finite_spec F Hf Hp) as (m & e & HF).
  apply Prim2SF_inj. rewrite div_spec, HF. reflexivity.
Qed.

Lemma binary64_div_infinity (a : float) :
  is_finite a = true -> exists s, Prim2SF (a / infinity) = S754_zero s.
Proof.
  intros Hf. apply is_finite_spec in Hf. rewrite div_spec.
  change (Prim2SF infinity) with (S754_infinity false).
  destruct (Prim2SF a) as [s | s | | s m e]; try contradiction;
    eexists; reflexivity.
Qed.

Lemma binary64_mul_signed_zero (p z : float) (s : bool) :
  is_finite p = true -> Prim2SF z = S754_zero s -> (p * z =? 0) = true.
Proof.
  intros Hf Hz. apply is_finite_spec in Hf.
  rewrite eqb_spec, mul_spec, Hz.
  change (Prim2SF 0) with (S754_zero false).
  destruct (Prim2SF p) as [sp | sp | | sp m e]; try contradiction;
    reflexivity.
Qed.

Lemma binary32_positive_over_zero (e : Binary32.t) :
  SFltb (S754_zero false) e = true ->
  Binary32.div e (S754_zero false) = S754_infinity false.
Proof.
  destruct e as [s | [] | | [] m ex]; cbn; try discriminate; reflexivity.
Qed.

(** X7.  In binary64, Birks mode, a positive energy over a step of length
    [+0.]: the quotient is [+inf], which the guard leaves, and with a
    positive finite field and [fRecombk] and a finite [RecombA] the stored
    electron count compares equal to zero (when the yield times the
    energy is finite). *)
Theorem birks_zero_step_positive_energy {M : Libm float}
    (this : @ISCalculationSeparate float) (e x y z : Binary32.t) :
  fUseModBoxRecomb this = false ->
  SFltb (S754_zero false) e = true ->
  let F := fst (EFieldAtStep this (Efield (fDetProp this)) x y z) in
  is_finite F = true -> (0 <? F) = true ->
  is_finite (fRecombk this) = true -> (0 <? fRecombk this) = true ->
  is_finite (RecombA (fLArG4Prop this)) = true ->
  is_finite (GeVToElectrons (fLArG4Prop this) * dmilli * widen e) = true ->
  dEdx_guarded e (S754_zero false) = infinity
  /\ (fNumIonElectrons
        (CalculateIonization this e (S754_zero false) x y z) =? 0) = true.
Proof.
  intros Hbirks He F HFf HFp Hkf Hkp HA HG.
  assert (Hd : dEdx_guarded e (S754_zero false) = infinity).
  { unfold dEdx_guarded. cbn.
    rewrite (binary32_positive_over_zero e He). reflexivity. }
  split; [exact Hd |].
  rewrite CalculateIonization_count. fold F. rewrite Hd.
  unfold recomb_from. rewrite Hbirks. cbn -[infinity].
  rewrite (binary64_infinity_mul _ Hkf Hkp).
  rewrite (binary64_infinity_div _ HFf HFp).
  change (1 + infinity) with infinity.
  destruct (binary64_div_infinity _ HA) as (s & Hz).
  apply (binary64_mul_signed_zero _ _ s HG Hz).
Qed.

End Binary64Edges.

(** ** More of the code: signs in binary64 *)

Section Binary64Signs.
Local Open Scope float_scope.
























(** C2, as the code has it.  [<] never finds the [dEdx] that
    [CalculateIonization] feeds to its recombination formulas below [1.]:
    when it finds the quotient [e/ds] below [1.] the quotient is replaced by
    exactly [1.], otherwise the quotient is kept.  A step of zero length is
    not guarded as such.  With [ds] the zero of sign [s] ([+0.] for [s]
    false): a positive [e], [+inf] included, gives the quotient [+inf] for
    [+0.], which is kept, and [-inf] for [-0.], which is replaced by [1.];
    an [e] equal to zero gives NaN, which is kept; a negative [e] gives
    [-inf] for [+0.], replaced by [1.], and [+inf] for [-0.], kept.  The
    stored electron count is computed from the guarded value in both
    recombination modes. *)
Theorem dEdx_guard_and_zero_step (M : Libm float)
    (this : @ISCalculationSeparate float) (e ds x y z : Binary32.t) :
  let raw := widen (sdiv e ds) in
  let EF := EFieldAtStep this (Efield (fDetProp this)) x y z in
  (dEdx_guarded e ds <? 1) = false
  /\ ((raw <? 1) = true -> dEdx_guarded e ds = 1)
  /\ ((raw <? 1) = false -> dEdx_guarded e ds = raw)
  /\ (forall s : bool, ds = S754_zero s ->
      (SFltb (S754_zero false) e = true ->
       dEdx_guarded e ds = if s then 1 else infinity)
      /\ (SFeqb e (S754_zero false) = true -> dEdx_guarded e ds = nan)
      /\ (SFltb e (S754_zero false) = true ->
          dEdx_guarded e ds = if s then infinity else 1))
  /\ fNumIonElectrons (CalculateIonization this e ds x y z)
     = GeVToElectrons (fLArG4Prop this) * dmilli * widen e
       * (if fUseModBoxRecomb this then
            if struth ds then
              log (fModBoxA this
                   + fModBoxB this * dEdx_guarded e ds / fst EF)
              / (fModBoxB this * dEdx_guarded e ds / fst EF)
            else 0
          else
            RecombA (fLArG4Prop this)
            / (1 + dEdx_guarded e ds * fRecombk this / fst EF)).
Proof.
  intros raw EF.
  destruct (dEdx_never_below_floor (L := IEEE_laws) this e ds x y z)
    as (Hfloor & Hbelow & Hkept & Hcount).
  repeat (split; [assumption |]).
  split; [| exact Hcount].
  intros s ->.
  destruct e as [se | se | | se me ee], s; try destruct se; cbn;
    repeat split; intros H; try discriminate H; reflexivity.
Qed.

End Binary64Signs.

(** ** More of the code: the active volume of NucleonDecay *)

Section ActiveVolume.
Context {double single : Type} {A : Arith double single}
  {L9 : Literals1e9 double}.
Local Open Scope cxx_scope.

(** One step of a running minimum or maximum: the new value is covered,
    and what was covered stays covered. *)
Lemma running_min_new {O : OrderLaws A} (v m : double) :
  (v <? (if v <? m then v else m)) = false.
Proof.
  destruct (v <? m) eqn:Hlt; [apply dltb_irrefl | exact Hlt].
Qed.

Lemma running_min_keeps {O : OrderLaws A} (u v m : double) :
  (u <? m) = false -> (u <? (if v <? m then v else m)) = false.
Proof.
  intros Hu. destruct (v <? m) eqn:Hlt; [| exact Hu].
  destruct (u <? v) eqn:Huv; [| reflexivity].
  rewrite (dltb_trans u v m Huv Hlt) in Hu. discriminate.
Qed.

Lemma running_max_new {O : OrderLaws A} (v m : double) :
  ((if m <? v then v else m) <? v) = false.
Proof.
  destruct (m <? v) eqn:Hlt; [apply dltb_irrefl | exact Hlt].
Qed.

Lemma running_max_keeps {O : OrderLaws A} (u v m : double) :
  (m <? u) = false -> ((if m <? v then v else m) <? u) = false.
Proof.
  intros Hu. destruct (m <? v) eqn:Hlt; [| exact Hu].
  destruct (v <? u) eqn:Hvu; [| reflexivity].
  rewrite (dltb_trans m v u Hlt Hvu) in Hu. discriminate.
Qed.

Lemma widen_bounds_new {O : OrderLaws A} (b : evgen.Bounds)
    (tpc : evgen.TPCGeo) :
  evgen.inside (evgen.widen_bounds b tpc) tpc.
Proof.
  unfold evgen.inside, evgen.widen_bounds. cbn.
  repeat split; first [apply running_min_new | apply running_max_new].
Qed.

Lemma widen_bounds_keeps {O : OrderLaws A} (b : evgen.Bounds)
    (tpc tpc' : evgen.TPCGeo) :
  evgen.inside b tpc -> evgen.inside (evgen.widen_bounds b tpc') tpc.
Proof.
  unfold evgen.inside, evgen.widen_bounds. cbn.
  intros (H1 & H2 & H3 & H4 & H5 & H6).
  repeat split;
    first [apply running_min_keeps | apply running_max_keeps]; assumption.
Qed.

Lemma fold_widen_keeps {O : OrderLaws A} (tpcs : list evgen.TPCGeo) :
  forall (b : evgen.Bounds) (tpc : evgen.TPCGeo),
  evgen.inside b tpc ->
  evgen.inside (fold_left evgen.widen_bounds tpcs b) tpc.
Proof.
  induction tpcs as [| t tpcs IH]; intros b tpc Hin; cbn [fold_left].
  - exact Hin.
  - apply IH. apply widen_bounds_keeps. exact Hin.
Qed.

Lemma fold_widen_inside {O : OrderLaws A} (tpcs : list evgen.TPCGeo) :
  forall (b : evgen.Bounds) (tpc : evgen.TPCGeo),
  In tpc tpcs -> evgen.inside (fold_left evgen.widen_bounds tpcs b) tpc.
Proof.
  induction tpcs as [| t tpcs IH]; intros b tpc Hin; cbn [fold_left].
  - destruct Hin.
  - destruct Hin as [-> | Hin].
    + apply fold_widen_keeps. apply widen_bounds_new.
    + apply IH. exact Hin.
Qed.

(** X11.  The active volume found by [produce] contains every TPC of the
    geometry: for none of them does a comparison of the loop body still
    hold against the final bounds.  A bound that is NaN is skipped and
    does not disturb the others. *)
Theorem active_volume_contains_every_TPC {O : OrderLaws A}
    (geo : evgen.Geometry) (tpc : evgen.TPCGeo) :
  In tpc (evgen.TPCs geo) -> evgen.inside (evgen.active_volume geo) tpc.
Proof.
  intros Hin. unfold evgen.active_volume. apply fold_widen_inside. exact Hin.
Qed.

Lemma fold_widen_attained (tpcs : list evgen.TPCGeo) :
  forall b : evgen.Bounds,
  let b' := fold_left evgen.widen_bounds tpcs b in
  evgen.start_or_attained (evgen.minx b) (evgen.minx b') evgen.MinX tpcs
  /\ evgen.start_or_attained (evgen.maxx b) (evgen.maxx b') evgen.MaxX tpcs
  /\ evgen.start_or_attained (evgen.miny b) (evgen.miny b') evgen.MinY tpcs
  /\ evgen.start_or_attained (evgen.maxy b) (evgen.maxy b') evgen.MaxY tpcs
  /\ evgen.start_or_attained (evgen.minz b) (evgen.minz b') evgen.MinZ tpcs
  /\ evgen.start_or_attained (evgen.maxz b) (evgen.maxz b') evgen.MaxZ tpcs.
Proof.
  unfold evgen.start_or_attained.
  induction tpcs as [| t tpcs IH]; intros b; cbn [fold_left].
  - repeat split; left; reflexivity.
  - specialize (IH (evgen.widen_bounds b t)). cbv zeta in IH.
    remember (fold_left evgen.widen_bounds tpcs (evgen.widen_bounds b t))
      as b' eqn:Hb'. clear Hb'.
    destruct IH as (H1 & H2 & H3 & H4 & H5 & H6).
    unfold evgen.widen_bounds in H1, H2, H3, H4, H5, H6.
    cbn [evgen.minx evgen.maxx evgen.miny evgen.maxy evgen.minz evgen.maxz]
      in H1, H2, H3, H4, H5, H6.
    repeat split.
    all: match goal with
         | H : ?v = (if ?c then _ else _) \/ _ |- ?v = _ \/ _ =>
             destruct H as [H | (tpc & Hin & H)];
             [ destruct c;
               [ right; exists t; split; [left; reflexivity | exact H]
               | left; exact H ]
             | right; exists tpc; split; [right; exact Hin | exact H] ]
         end.
Qed.

End ActiveVolume.

Section ActiveVolumeBinary64.
Local Open Scope float_scope.

(** X12.  Each bound of the active volume is the extreme of its starting
    value ([1e9] for a minimum, [-1e9] for a maximum) and the bounds of the
    TPCs: it is one of these values, it is not beyond its starting value,
    and no TPC reaches beyond it.  With no TPC the bounds are the starting
    values, each minimum above its maximum. *)
Theorem active_volume_bounds_are_extremes (geo : @evgen.Geometry float) :
  let b := evgen.active_volume geo in
  (evgen.start_or_attained d1e9 (evgen.minx b) evgen.MinX (evgen.TPCs geo)
   /\ evgen.start_or_attained dneg1e9 (evgen.maxx b) evgen.MaxX
        (evgen.TPCs geo)
   /\ evgen.start_or_attained d1e9 (evgen.miny b) evgen.MinY (evgen.TPCs geo)
   /\ evgen.start_or_attained dneg1e9 (evgen.maxy b) evgen.MaxY
        (evgen.TPCs geo)
   /\ evgen.start_or_attained d1e9 (evgen.minz b) evgen.MinZ (evgen.TPCs geo)
   /\ evgen.start_or_attained dneg1e9 (evgen.maxz b) evgen.MaxZ
        (evgen.TPCs geo))
  /\ ((d1e9 <? evgen.minx b) = false /\ (evgen.maxx b <? dneg1e9) = false
      /\ (d1e9 <? evgen.miny b) = false /\ (evgen.maxy b <? dneg1e9) = false
      /\ (d1e9 <? evgen.minz b) = false /\ (evgen.maxz b <? dneg1e9) = false)
  /\ (forall tpc : evgen.TPCGeo,
      In tpc (evgen.TPCs geo) -> evgen.inside b tpc)
  /\ (evgen.TPCs geo = nil ->
      b = {| evgen.minx := d1e9; evgen.maxx := dneg1e9;
             evgen.miny := d1e9; evgen.maxy := dneg1e9;
             evgen.minz := d1e9; evgen.maxz := dneg1e9 |}
      /\ (evgen.maxx b <? evgen.minx b) = true
      /\ (evgen.maxy b <? evgen.miny b) = true
      /\ (evgen.maxz b <? evgen.minz b) = true).
Proof.
  intros b. subst b. unfold evgen.active_volume.
  split; [apply (fold_widen_attained (evgen.TPCs geo)) |].
  split.
  - apply (fold_widen_keeps (O := IEEE_order) (evgen.TPCs geo) _
             {| evgen.MinX := d1e9; evgen.MaxX := dneg1e9;
                evgen.MinY := d1e9; evgen.MaxY := dneg1e9;
                evgen.MinZ := d1e9; evgen.MaxZ := dneg1e9 |}).
    repeat split; reflexivity.
  - split.
    + intros tpc Hin. apply (fold_widen_inside (O := IEEE_order)). exact Hin.
    + intros ->. cbn [fold_left]. repeat split; reflexivity.
Qed.

End ActiveVolumeBinary64.

(** ** More of the code: the particles NucleonDecay produces *)

Section Conversion.
Context {double single : Type} {A : Arith double single}
  {L9 : Literals1e9 double}.

Lemma convert_Origin (items : list evgen.TObject) (X0_ Y0_ Z0_ : double) :
  forall (trackid : Z) (truth : evgen.MCTruth),
  evgen.Origin (evgen.convert items X0_ Y0_ Z0_ trackid truth)
  = evgen.Origin truth.
Proof.
  induction items as [| [part |] rest IH]; intros trackid truth;
    cbn [evgen.convert]; try reflexivity.
  rewrite IH. reflexivity.
Qed.

(** The loop with its counter is a map over the numbered leading
    particles. *)
Lemma convert_Particles (items : list evgen.TObject) (X0_ Y0_ Z0_ : double) :
  forall (s : nat) (truth : evgen.MCTruth),
  evgen.Particles (evgen.convert items X0_ Y0_ Z0_ (Z.of_nat s) truth)
  = evgen.Particles truth
    ++ map (fun ig => evgen.to_MCParticle (snd ig) X0_ Y0_ Z0_
                        (Z.of_nat (fst ig)))
         (combine (seq s (length (evgen.leading_particles items)))
            (evgen.leading_particles items)).
Proof.
  induction items as [| [part |] rest IH]; intros s truth;
    cbn [evgen.convert evgen.leading_particles length seq combine map];
    try (rewrite app_nil_r; reflexivity).
  replace (Z.of_nat s + 1)%Z with (Z.of_nat (S s)) by lia.
  rewrite IH. cbn [evgen.Add evgen.Particles].
  rewrite <- app_assoc. reflexivity.
Qed.

Lemma map_numbered {X Y : Type} (f : nat -> X -> Y) (g : X -> Y)
    (l : list X) :
  forall s : nat,
  (forall i x, f i x = g x) ->
  map (fun ix => f (fst ix) (snd ix)) (combine (seq s (length l)) l)
  = map g l.
Proof.
  induction l as [| x l IH]; intros s Hf; cbn; [reflexivity |].
  rewrite Hf, IH by exact Hf. reflexivity.
Qed.

Lemma map_numbers {X Y : Type} (f : nat -> X -> Y) (h : nat -> Y)
    (l : list X) :
  forall s : nat,
  (forall i x, f i x = h i) ->
  map (fun ix => f (fst ix) (snd ix)) (combine (seq s (length l)) l)
  = map h (seq s (length l)).
Proof.
  induction l as [| x l IH]; intros s Hf; cbn; [reflexivity |].
  rewrite Hf, IH by exact Hf. reflexivity.
Qed.

Lemma leading_particles_length (items : list (@evgen.TObject double)) :
  (length (evgen.leading_particles items) <= length items)%nat.
Proof.
  induction items as [| [part |] rest IH]; cbn; lia.
Qed.

Section Produce.
Variable GenieState : Type.
Variable ProcessEventRecord :
  GenieState -> evgen.Interaction
  -> list (@evgen.TObject double) * GenieState.
Variable Engine : Type.
Variable fire : Engine -> double -> double -> double * Engine.

Lemma produce_truth (this : evgen.NucleonDecay) (geo : evgen.Geometry)
    (genie : GenieState) (engine : Engine) :
  let interaction :=
    {| evgen.ndecay_target := 1000180400;
       evgen.ndecay_mode := evgen.gOptDecayMode this;
       evgen.ndecay_nucleon := evgen.dpdg this |} in
  let event := fst (ProcessEventRecord genie interaction) in
  let vertex :=
    evgen.draw_vertex Engine fire (evgen.active_volume geo) engine in
  fst (fst (evgen.produce GenieState ProcessEventRecord Engine fire
              this geo genie engine))
  = evgen.SetOrigin
      (evgen.convert event (fst (fst (fst vertex))) (snd (fst (fst vertex)))
         (snd (fst vertex)) 0 evgen.new_MCTruth)
      evgen.kUnknown :: nil.
Proof.
  intros interaction event vertex. unfold evgen.produce.
  fold interaction. subst event vertex.
  destruct (ProcessEventRecord genie interaction) as [event genie'].
  destruct (evgen.draw_vertex Engine fire (evgen.active_volume geo) engine)
    as [[[X0_ Y0_] Z0_] engine'].
  reflexivity.
Qed.

(** X13.  [produce] puts exactly one [MCTruth], of unknown origin, into
    the event.  It holds one [MCParticle] for each [GHepParticle] at the
    head of the generated record, in the order of the record, with track
    numbers 0, 1, 2, ... and the code, mother, status, mass, rescatter
    code and polarization (when set) of its source; the conversion ends
    at the first entry that is not a [GHepParticle].  (The record is
    shorter than 2^31 entries, the range of the [int] counter.) *)
Theorem produce_numbers_the_particles (this : evgen.NucleonDecay)
    (geo : evgen.Geometry) (genie : GenieState) (engine : Engine) :
  let interaction :=
    {| evgen.ndecay_target := 1000180400;
       evgen.ndecay_mode := evgen.gOptDecayMode this;
       evgen.ndecay_nucleon := evgen.dpdg this |} in
  let event := fst (ProcessEventRecord genie interaction) in
  let lead := evgen.leading_particles event in
  (Z.of_nat (length event) < 2 ^ 31)%Z ->
  exists truth : evgen.MCTruth,
    fst (fst (evgen.produce GenieState ProcessEventRecord Engine fire
                this geo genie engine)) = truth :: nil
    /\ evgen.Origin truth = evgen.kUnknown
    /\ length (evgen.Particles truth) = length lead
    /\ (length lead <= length event)%nat
    /\ map evgen.TrackId (evgen.Particles truth)
       = map Z.of_nat (seq 0 (length lead))
    /\ map evgen.PdgCode (evgen.Particles truth) = map evgen.Pdg lead
    /\ map evgen.Mother (evgen.Particles truth)
       = map evgen.FirstMother lead
    /\ map evgen.StatusCode (evgen.Particles truth) = map evgen.Status lead
    /\ map evgen.ParticleMass (evgen.Particles truth) = map evgen.Mass lead
    /\ map evgen.Rescatter (evgen.Particles truth)
       = map evgen.RescatterCode lead
    /\ map evgen.Polarization (evgen.Particles truth)
       = map (fun g => if evgen.PolzIsSet g
                       then Some (evgen.GetPolarization g) else None) lead.
Proof.
  intros interaction event lead _.
  pose proof (produce_truth this geo genie engine) as Hp. cbv zeta in Hp.
  fold interaction event in Hp.
  eexists. split; [exact Hp |].
  cbn [evgen.SetOrigin evgen.Origin evgen.Particles].
  rewrite (convert_Particles event _ _ _ 0 evgen.new_MCTruth).
  cbn [evgen.new_MCTruth evgen.Particles app]. fold lead.
  split; [reflexivity |].
  split; [rewrite length_map, length_combine, length_seq; lia |].
  split; [apply leading_particles_length |].
  rewrite !map_map.
  repeat split.
  - apply (map_numbers (fun i g => evgen.TrackId
             (evgen.to_MCParticle g _ _ _ (Z.of_nat i)))).
    intros i g. unfold evgen.to_MCParticle.
    destruct (evgen.PolzIsSet g); reflexivity.
  - apply (map_numbered (fun i g => evgen.PdgCode
             (evgen.to_MCParticle g _ _ _ (Z.of_nat i)))).
    intros i g. unfold evgen.to_MCParticle.
    destruct (evgen.PolzIsSet g); reflexivity.
  - apply (map_numbered (fun i g => evgen.Mother
             (evgen.to_MCParticle g _ _ _ (Z.of_nat i)))).
    intros i g. unfold evgen.to_MCParticle.
    destruct (evgen.PolzIsSet g); reflexivity.
  - apply (map_numbered (fun i g => evgen.StatusCode
             (evgen.to_MCParticle g _ _ _ (Z.of_nat i)))).
    intros i g. unfold evgen.to_MCParticle.
    destruct (evgen.PolzIsSet g); reflexivity.
  - apply (map_numbered (fun i g => evgen.ParticleMass
             (evgen.to_MCParticle g _ _ _ (Z.of_nat i)))).
    intros i g. unfold evgen.to_MCParticle.
    destruct (evgen.PolzIsSet g); reflexivity.
  - apply (map_numbered (fun i g => evgen.Rescatter
             (evgen.to_MCParticle g _ _ _ (Z.of_nat i)))).
    intros i g. unfold evgen.to_MCParticle.
    destruct (evgen.PolzIsSet g); reflexivity.
  - apply (map_numbered (fun i g => evgen.Polarization
             (evgen.to_MCParticle g _ _ _ (Z.of_nat i)))).
    intros i g. unfold evgen.to_MCParticle.
    destruct (evgen.PolzIsSet g); reflexivity.
Qed.

(** X14.  Every particle [produce] emits has exactly one trajectory
    point: its position is the one vertex drawn for the event, at time 0,
    the same for all particles, and its momentum is [(Px, Py, Pz, E)] of
    the source particle. *)
Theorem produce_one_vertex (this : evgen.NucleonDecay)
    (geo : evgen.Geometry) (genie : GenieState) (engine : Engine) :
  let interaction :=
    {| evgen.ndecay_target := 1000180400;
       evgen.ndecay_mode := evgen.gOptDecayMode this;
       evgen.ndecay_nucleon := evgen.dpdg this |} in
  let lead :=
    evgen.leading_particles (fst (ProcessEventRecord genie interaction)) in
  let vertex :=
    evgen.draw_vertex Engine fire (evgen.active_volume geo) engine in
  let pos :=
    {| evgen.lv_X := fst (fst (fst vertex));
       evgen.lv_Y := snd (fst (fst vertex));
       evgen.lv_Z := snd (fst vertex);
       evgen.lv_T := dzero |} in
  forall truth : evgen.MCTruth,
  In truth
    (fst (fst (evgen.produce GenieState ProcessEventRecord Engine fire
                 this geo genie engine))) ->
  map evgen.Trajectory (evgen.Particles truth)
  = map (fun g =>
           (pos, {| evgen.lv_X := evgen.Px g; evgen.lv_Y := evgen.Py g;
                    evgen.lv_Z := evgen.Pz g; evgen.lv_T := evgen.E g |})
           :: nil) lead.
Proof.
  intros interaction lead vertex pos truth Hin.
  pose proof (produce_truth this geo genie engine) as Hp. cbv zeta in Hp.
  fold interaction vertex in Hp. rewrite Hp in Hin.
  destruct Hin as [<- | []].
  cbn [evgen.SetOrigin evgen.Particles].
  rewrite (convert_Particles _ _ _ _ 0 evgen.new_MCTruth).
  cbn [evgen.new_MCTruth evgen.Particles app]. fold lead.
  rewrite map_map.
  apply (map_numbered (fun i g => evgen.Trajectory
           (evgen.to_MCParticle g _ _ _ (Z.of_nat i)))).
  intros i g. unfold evgen.to_MCParticle.
  destruct (evgen.PolzIsSet g); reflexivity.
Qed.

End Produce.
End Conversion.

(** ** More of the code: the statements on sample inputs *)

Section MoreOnIEEE.

Import SampleIEEE SampleMore.

Local Open Scope float_scope.

(** Charged pions of either sign give the same count; an antiproton gets
    the electron yield, 2 * 20000. *)
Lemma antiparticle_photon_count_witness :
  fNumScintPhotons
    (CalculateScintillation (calc true false false) (f32 2) (-211))
  = fNumScintPhotons
      (CalculateScintillation (calc true false false) (f32 2) 211)
  /\ fNumScintPhotons
       (CalculateScintillation (calc true false false) (f32 2) (-2212))
     = 40000.
Proof.
  destruct (antiparticle_photon_count (calc true false false) (f32 2) 211
              eq_refl) as (Hsame & Hpbar & _).
  split; [| exact Hpbar].
  apply Hsame; cbn; lia.
Defined.

(** Nominal field 0.5 and offsets (0, -1, 0): the sum under the root is
    0.25 - 1 + 0. *)
Lemma negative_radicand_gives_nan_field_witness :
  fst (EFieldAtStep (calc_negative false) 0.5 (f32 1) (f32 2) (f32 3)) = nan.
Proof.
  apply (negative_radicand_gives_nan_field (calc_negative false) 0.5
           (f32 1) (f32 2) (f32 3)); reflexivity.
Defined.

Lemma nan_field_gives_nan_electrons_witness :
  for_any_log (fun M =>
    fNumIonElectrons
      (CalculateIonization (calc_negative false) (f32 2) (f32 0.5)
         (f32 1) (f32 2) (f32 3)) = nan).
Proof.
  intros M.
  apply (nan_field_gives_nan_electrons (calc_negative false) (f32 2)
           (f32 0.5) (f32 1) (f32 2) (f32 3)).
  - apply EFieldAtStep_nan; reflexivity.
  - left. reflexivity.
Defined.

Lemma birks_zero_step_positive_energy_witness :
  for_any_log (fun M =>
    (fNumIonElectrons
       (CalculateIonization (calc false false false) (f32 5)
          (S754_zero false) (f32 1) (f32 2) (f32 3)) =? 0) = true).
Proof.
  intros M.
  apply (birks_zero_step_positive_energy (calc false false false) (f32 5)
           (f32 1) (f32 2) (f32 3)); reflexivity.
Defined.

Lemma active_volume_contains_every_TPC_witness :
  evgen.inside (evgen.active_volume geo) tpc_right.
Proof.
  apply (active_volume_contains_every_TPC (O := IEEE_order) geo tpc_right).
  right. left. reflexivity.
Defined.

(** The sample record: three particles are converted, numbered 0, 1, 2;
    the entry behind the foreign object is not reached. *)
Lemma produce_numbers_the_particles_witness :
  exists truth : evgen.MCTruth,
    fst (fst (evgen.produce unit generator unit middle module geo tt tt))
    = truth :: nil
    /\ map evgen.TrackId (evgen.Particles truth) = (0 :: 1 :: 2 :: nil)%Z
    /\ map evgen.PdgCode (evgen.Particles truth)
       = (2212 :: -11 :: 111 :: nil)%Z.
Proof.
  destruct (produce_numbers_the_particles unit generator unit middle module
              geo tt tt)
    as (truth & Hcol & _ & _ & _ & Hid & Hpdg & _).
  - cbn. lia.
  - exists truth. repeat split; assumption.
Defined.

(** The sample geometry spans -200..200, -100..100 and 0..500; with the
    flat distribution at the middle, the vertex is (0, 0, 250). *)
Lemma produce_one_vertex_witness :
  Forall
    (fun truth =>
       map (fun p => map fst (evgen.Trajectory p)) (evgen.Particles truth)
       = repeat
           ({| evgen.lv_X := 0; evgen.lv_Y := 0; evgen.lv_Z := 250;
               evgen.lv_T := 0 |} :: nil) 3)
    (fst (fst (evgen.produce unit generator unit middle module geo tt tt))).
Proof.
  apply Forall_forall. intros truth Hin.
  rewrite <- map_map.
  rewrite (produce_one_vertex unit generator unit middle module geo tt tt
             truth Hin).
  reflexivity.
Defined.

(** C2, as the specification states it, fails.  A step of zero length
    ([ds] converts to [false]) with 5 MeV: the quotient is [+inf], which is
    not below [1.], and it is fed to the formulas as it is, not clamped to
    [1.].  With 0 MeV the quotient is NaN, kept as well, and [1. <= dEdx]
    is false. *)
Lemma zero_step_quotient_is_not_clamped :
  struth (f32 0) = false
  /\ dEdx_guarded (f32 5) (f32 0) = infinity
  /\ dEdx_guarded (f32 0) (f32 0) = nan
  /\ (1 <=? dEdx_guarded (f32 0) (f32 0)) = false.
Proof.
  vm_compute. repeat split; reflexivity.
Qed.



(** The count is NaN for an infinite energy over a positive step: the
    survival fraction is [0.] and [inf * 0.] is NaN. *)
Example electron_count_nan_at_infinite_energy (M : Libm float) :
  fNumIonElectrons
    (CalculateIonization (calc false false false) (f32 infinity) (f32 0.5)
       (f32 1) (f32 2) (f32 3)) = nan.
Proof.
  vm_compute. reflexivity.
Qed.

(** In modified-box mode the logarithm can be negative, and the count
    with it.  Field 5 kV/cm, 0.5 MeV over 1 cm: the quotient is guarded to
    [1.], [Xi] is about 0.03 and the argument of the logarithm about
    0.9604.  Where [std::log] returns -0x1.4b3c5cbd20f7cp-5 there (about
    -0.0404), the stored count is below zero. *)
Example modbox_negative_logarithm (M : Libm float) :
  fModBoxA calc_strong
  + fModBoxB calc_strong * dEdx_guarded (f32 0.5) (f32 1) / 5
  = 0x1.ebb5f1816c4c3p-1
  /\ (log 0x1.ebb5f1816c4c3p-1 = -0x1.4b3c5cbd20f7cp-5 ->
      (fNumIonElectrons
         (CalculateIonization calc_strong (f32 0.5) (f32 1)
            (f32 1) (f32 2) (f32 3)) <? 0) = true).
Proof.
  split; [vm_compute; reflexivity |].
  intros Hlog. rewrite CalculateIonization_count.
  change (recomb_from calc_strong (f32 1) (dEdx_guarded (f32 0.5) (f32 1))
            (fst (EFieldAtStep calc_strong (Efield (fDetProp calc_strong))
                    (f32 1) (f32 2) (f32 3))))
    with (log 0x1.ebb5f1816c4c3p-1 / 0x1.f19f77db9e005p-6).
  rewrite Hlog. vm_compute. reflexivity.
Qed.

(** The two sample TPCs: the active volume is [-200, 200] x [-100, 100] x
    [0, 500]. *)
Example active_volume_of_two_TPCs :
  evgen.active_volume geo
  = {| evgen.minx := -200; evgen.maxx := 200;
       evgen.miny := -100; evgen.maxy := 100;
       evgen.minz := 0; evgen.maxz := 500 |}.
Proof.
  vm_compute. reflexivity.
Qed.

End MoreOnIEEE.
